(** * Session lifecycle manager of the biochatter server

    A shallow embedding of [src/conversation_manager.py]: the process-wide
    session registry [conversationsDict], the re-entrant lock [rlock] that
    guards it, the [SessionData] record and its [chat] method, and the
    recycling tick [recycle_conversations].

    Python statements run in the monad [M]: a state monad over [World] whose
    outcome is either a returned value or a raised exception.  Whatever the
    module reads from outside (the clock, [os.environ], the biochatter
    library, the constants of [src.constants]) is collected in [Env].

    The last part of the definitions embeds the pure side of [app.py]:
    [process_connection_args] and the document and connection status
    endpoints, over the services they call ([Services]). *)

From Stdlib Require Import String List ZArith QArith Bool Lia.
From Stdlib Require Import Ascii DecimalString.
Import ListNotations.
Close Scope Q_scope.
Local Open Scope string_scope.
Local Open Scope list_scope.

(** ** Python values and exceptions *)

Inductive exn : Type :=
| KeyError (key : string)
| TypeError (what : string)
| RuntimeError (what : string)
| LibraryError (what : string).

Inductive outcome (A : Type) : Type :=
| Return (a : A)
| Raise (e : exn).
Arguments Return {A} a.
Arguments Raise {A} e.

(** The values a model configuration holds (it comes from a JSON body or
    from [defaultModelConfig]). *)
Inductive pyval : Type :=
| PStr (s : string)
| PInt (z : Z)
| PFloat (q : Q)
| PBool (b : bool)
| PNone.

Definition pyval_is_str (v : pyval) (s : string) : bool :=
  match v with
  | PStr s' => String.eqb s' s
  | _ => false
  end.

(** [int(x)] on a float: truncation towards zero. *)
Definition int_of_float (x : Q) : Z := Z.quot (Qnum x) (Z.pos (Qden x)).

(** [a < x] for an int [a] and a float [x]: Python compares them exactly. *)
Definition int_lt_float (a : Z) (x : Q) : bool := negb (Qle_bool x (inject_Z a)).

(** Truthiness of an optional string ([None] and the empty string are falsy). *)
Definition truthy (s : option string) : bool :=
  match s with
  | None => false
  | Some s' => negb (String.eqb s' "")
  end.

(** ** Python dictionaries

    A [dict] keeps its keys unique and in insertion order; assigning to a
    present key keeps its position. *)
Module PyDict.
Section Dict.
Context {V : Type}.

Definition t := list (string * V).

Definition empty : t := [].

Fixpoint get (k : string) (d : t) : option V :=
  match d with
  | [] => None
  | (k', v) :: d' => if String.eqb k k' then Some v else get k d'
  end.

Definition mem (k : string) (d : t) : bool :=
  match get k d with Some _ => true | None => false end.

Fixpoint set (k : string) (v : V) (d : t) : t :=
  match d with
  | [] => [(k, v)]
  | (k', v') :: d' =>
      if String.eqb k k' then (k, v) :: d' else (k', v') :: set k v d'
  end.

Fixpoint del (k : string) (d : t) : t :=
  match d with
  | [] => []
  | (k', v') :: d' =>
      if String.eqb k k' then del k d' else (k', v') :: del k d'
  end.

Definition keys (d : t) : list string := map fst d.

End Dict.
Arguments t V : clear implicits.
End PyDict.

(** ** The biochatter conversation engine, as this module sees it *)

Inductive EngineKind : Type :=
| AzureGptConversation
| GptConversation
| WasmConversation.

Definition is_azure_kind (k : EngineKind) : bool :=
  match k with AzureGptConversation => true | _ => false end.

(** Entries of the engine's [messages] history. *)
Inductive ChatMessage : Type :=
| SystemMessage (c : string)
| AIMessage (c : string)
| HumanMessage (c : string).

(** [datatypes.ConnectionArgs] and [datatypes.RagConfig]. *)
Record ConnectionArgs : Type := mkConnectionArgs {
  host : string;
  port : string;
  user : option string;
  password : option string
}.

Record RagConfig : Type := mkRagConfig {
  splitByChar : bool;
  chunkSize : Z;
  overlapSize : Z;
  resultNum : Z;
  connectionArgs : ConnectionArgs
}.

(** The keyword arguments [SessionData.chat] passes to [DocumentEmbedder]. *)
Record DocumentEmbedder : Type := mkDocumentEmbedder {
  used : bool;
  use_prompt : bool;
  chunk_size : Z;
  chunk_overlap : Z;
  split_by_characters : bool;
  n_results : Z;
  api_key : option string;
  is_azure : bool;
  azure_deployment : option string;
  azure_endpoint : option string;
  connection_args : ConnectionArgs
}.

(** The arguments each conversation class is constructed with in
    [initialize_conversation]. *)
Definition Prompts := list string.

Inductive CtorArgs : Type :=
| AzureArgs (deployment_name model_name : string) (prompts : Prompts)
            (version base_url : string)
| WasmArgs (model_name : string)
| GptArgs (model_name : string) (prompts : Prompts).

Definition kind_of (a : CtorArgs) : EngineKind :=
  match a with
  | AzureArgs _ _ _ _ _ => AzureGptConversation
  | WasmArgs _ => WasmConversation
  | GptArgs _ _ => GptConversation
  end.

(** A conversation object on the heap.  [has_chat] is
    [hasattr(chatter, "chat")]. *)
Record Conversation : Type := mkConversation {
  ctor : CtorArgs;
  has_chat : bool;
  messages : list ChatMessage;
  rag_agent : option DocumentEmbedder
}.

Definition kind (c : Conversation) : EngineKind := kind_of (ctor c).

Definition handle := nat.

Definition Usage := list (string * Z).

(** [datatypes.Message]. *)
Record Message : Type := mkMessage {
  role : string;
  content : string
}.

(** ** Session records *)

Definition ModelConfig := PyDict.t pyval.

Record SessionData : Type := mkSessionData {
  modelConfig : ModelConfig;
  chatter : option handle;
  sessionId : string;
  createdAt : Z;
  refreshedAt : Z;
  maxAge : Z
}.

Definition defaultModelConfig : ModelConfig :=
  [ ("model", PStr "gpt-4");
    ("temperature", PFloat (7 # 10));
    ("max_tokens", PInt 2000);
    ("presence_penalty", PInt 0);
    ("frequency_penalty", PInt 0);
    ("sendMemory", PBool true);
    ("historyMessageCount", PInt 4);
    ("compressMessageLengthThreshold", PInt 2000) ].

Definition MAX_AGE : Z := 3 * 24 * 3600 * 1000.

(** ** The world *)

(** What a call leaves behind for an observer: lock operations, log records
    and calls into the biochatter library, oldest first. *)
Inductive Event : Type :=
| Acquire
| Release
| InfoCreate (k : EngineKind) (sid : string)
| InfoGetConversation (sid : string)
| InfoRecycle
| InfoRecycleSession (sid : string) (refreshed max_age : Z)
| LogError (e : exn)
| Construct (k : EngineKind) (h : handle)
| SetApiKey (h : handle) (key : option string)
| Connect (h : handle)
| Query (h : handle) (text : string) (history : list ChatMessage).

Record World : Type := mkWorld {
  conversationsDict : PyDict.t SessionData;
  rlock : nat;                       (* recursion level of the held RLock *)
  heap : list Conversation;          (* conversation objects, by handle *)
  openai_api_key : option string;    (* the global [openai.api_key] *)
  trace : list Event
}.

Definition initial_world : World :=
  mkWorld PyDict.empty 0 [] None [].

(** The biochatter library, an external collaborator.  Each field says what
    a call does when it is made; [None] in an [option exn] is a normal
    return. *)
Record Biochatter : Type := mkBiochatter {
  (* a constructor of a conversation class, on its arguments *)
  construct_raises : CtorArgs -> option exn;
  (* [set_api_key(key, user)]: whether the object has a [chat] attribute
     afterwards, and the value of [openai.api_key] afterwards *)
  set_api_key : Conversation -> option string -> option string ->
                option string -> outcome (bool * option string);
  (* [rag_agent.connect()] *)
  connect_raises : DocumentEmbedder -> option exn;
  (* [query(text)]: the reply, the usage counters, the history afterwards *)
  query : Conversation -> string -> outcome (string * Usage * list ChatMessage)
}.

(** Everything a call reads from outside the module. *)
Record Env : Type := mkEnv {
  (* [datetime.now().timestamp() * 1000] *)
  now : Q;
  (* [os.environ] *)
  environ : PyDict.t string;
  (* names of environment variables, from [src.constants] *)
  OPENAI_API_TYPE : string;
  OPENAI_DEPLOYMENT_NAME : string;
  OPENAI_MODEL : string;
  OPENAI_API_VERSION : string;
  AZURE_OPENAI_ENDPOINT : string;
  OPENAI_API_KEY : string;
  (* [src.utils.get_azure_embedding_deployment()] and
     [src.utils.get_rag_agent_prompts()] *)
  get_azure_embedding_deployment : bool * option string * option string;
  get_rag_agent_prompts : Prompts;
  lib : Biochatter
}.

(** ** The monad of Python statements *)

Definition M (A : Type) : Type := World -> outcome A * World.

Definition ret {A} (a : A) : M A := fun w => (Return a, w).

Definition raise {A} (e : exn) : M A := fun w => (Raise e, w).

Definition bind {A B} (c : M A) (k : A -> M B) : M B :=
  fun w =>
    match c w with
    | (Return a, w') => k a w'
    | (Raise e, w') => (Raise e, w')
    end.

(** [try: c  except Exception as e: h e]. *)
Definition try_except {A} (c : M A) (h : exn -> M A) : M A :=
  fun w =>
    match c w with
    | (Return a, w') => (Return a, w')
    | (Raise e, w') => h e w'
    end.

(** [try: c  finally: f]: [f] runs on every way out of [c]. *)
Definition try_finally {A} (c : M A) (f : M unit) : M A :=
  fun w =>
    match c w with
    | (r, w') =>
        match f w' with
        | (Return _, w'') => (r, w'')
        | (Raise e, w'') => (Raise e, w'')
        end
    end.

Declare Scope py_scope.
Delimit Scope py_scope with py.
Notation "x <- c ;; k" := (bind c (fun x => k))
  (at level 100, c at next level, right associativity) : py_scope.
Notation "c ;; k" := (bind c (fun _ => k))
  (at level 100, right associativity) : py_scope.
Local Open Scope py_scope.

(** [for x in l: body x]. *)
Fixpoint for_each {A} (l : list A) (body : A -> M unit) : M unit :=
  match l with
  | [] => ret tt
  | x :: l' => body x ;; for_each l' body
  end.

(** A [for] loop that updates a local variable. *)
Fixpoint for_fold {A S} (l : list A) (s : S) (body : A -> S -> M S) : M S :=
  match l with
  | [] => ret s
  | x :: l' => s' <- body x s ;; for_fold l' s' body
  end.

(** ** Primitive effects *)

Definition with_dict (d : PyDict.t SessionData) (w : World) : World :=
  mkWorld d (rlock w) (heap w) (openai_api_key w) (trace w).

Definition with_rlock (n : nat) (w : World) : World :=
  mkWorld (conversationsDict w) n (heap w) (openai_api_key w) (trace w).

Definition with_heap (h : list Conversation) (w : World) : World :=
  mkWorld (conversationsDict w) (rlock w) h (openai_api_key w) (trace w).

Definition with_openai_api_key (k : option string) (w : World) : World :=
  mkWorld (conversationsDict w) (rlock w) (heap w) k (trace w).

Definition record (ev : Event) (w : World) : World :=
  mkWorld (conversationsDict w) (rlock w) (heap w) (openai_api_key w)
          (trace w ++ [ev]).

Definition emit (ev : Event) : M unit := fun w => (Return tt, record ev w).

Definition logger_info (ev : Event) : M unit := emit ev.

Definition logger_error (e : exn) : M unit := emit (LogError e).

(** [rlock.acquire()] by the thread that runs the call: an [RLock] lets its
    owner acquire it again and counts the levels. *)
Definition rlock_acquire : M unit :=
  fun w => (Return tt, record Acquire (with_rlock (S (rlock w)) w)).

Definition rlock_release : M unit :=
  fun w =>
    match rlock w with
    | O => (Raise (RuntimeError "cannot release un-acquired lock"), w)
    | S n => (Return tt, record Release (with_rlock n w))
    end.

Definition get_dict : M (PyDict.t SessionData) :=
  fun w => (Return (conversationsDict w), w).

Definition put_dict (d : PyDict.t SessionData) : M unit :=
  fun w => (Return tt, with_dict d w).

(** [os.environ[name]]. *)
Definition os_environ (E : Env) (name : string) : M string :=
  match PyDict.get name (environ E) with
  | Some v => ret v
  | None => raise (KeyError name)
  end.

(** [d[key]] on a plain dictionary. *)
Definition getitem {V} (d : PyDict.t V) (key : string) : M V :=
  match PyDict.get key d with
  | Some v => ret v
  | None => raise (KeyError key)
  end.

Fixpoint list_update {A} (l : list A) (i : nat) (x : A) : list A :=
  match l, i with
  | [], _ => []
  | _ :: l', O => x :: l'
  | y :: l', S i' => y :: list_update l' i' x
  end.

(** The object behind a handle. *)
Definition deref (h : handle) : M Conversation :=
  fun w =>
    match nth_error (heap w) h with
    | Some c => (Return c, w)
    | None => (Raise (RuntimeError "dangling handle"), w)
    end.

Definition store (h : handle) (c : Conversation) : M unit :=
  fun w => (Return tt, with_heap (list_update (heap w) h c) w).

(** Calling a conversation class: the new object has an empty history, no
    [chat] attribute and no [rag_agent] yet. *)
Definition new_conversation (E : Env) (args : CtorArgs) : M handle :=
  match construct_raises (lib E) args with
  | Some e => raise e
  | None =>
      fun w =>
        let h := length (heap w) in
        (Return h,
         record (Construct (kind_of args) h)
                (with_heap (heap w ++ [mkConversation args false [] None]) w))
  end.

(** [chatter.set_api_key(key, user)]. *)
Definition chatter_set_api_key (E : Env) (h : handle)
    (key : option string) (usr : option string) : M unit :=
  c <- deref h ;;
  emit (SetApiKey h key) ;;
  fun w =>
    match set_api_key (lib E) c key usr (openai_api_key w) with
    | Raise e => (Raise e, w)
    | Return (hc, k') =>
        (Return tt,
         with_openai_api_key k'
           (with_heap
              (list_update (heap w) h
                 (mkConversation (ctor c) hc (messages c) (rag_agent c))) w))
    end.

Definition set_rag_agent (h : handle) (emb : DocumentEmbedder) : M unit :=
  c <- deref h ;;
  store h (mkConversation (ctor c) (has_chat c) (messages c) (Some emb)).

Definition rag_agent_connect (E : Env) (h : handle) (emb : DocumentEmbedder)
    : M unit :=
  emit (Connect h) ;;
  match connect_raises (lib E) emb with
  | Some e => raise e
  | None => ret tt
  end.

Definition set_messages (h : handle) (ms : list ChatMessage) : M unit :=
  c <- deref h ;;
  store h (mkConversation (ctor c) (has_chat c) ms (rag_agent c)).

Definition append_message (h : handle) (m : ChatMessage) : M unit :=
  c <- deref h ;;
  store h (mkConversation (ctor c) (has_chat c) (messages c ++ [m])
                          (rag_agent c)).

Definition append_system_message (h : handle) (c : string) : M unit :=
  append_message h (SystemMessage c).

Definition append_ai_message (h : handle) (c : string) : M unit :=
  append_message h (AIMessage c).

Definition append_user_message (h : handle) (c : string) : M unit :=
  append_message h (HumanMessage c).

(** [chatter.query(text)]: the third component of the library's answer is
    dropped by the caller. *)
Definition chatter_query (E : Env) (h : handle) (text : string)
    : M (string * Usage) :=
  c <- deref h ;;
  emit (Query h text (messages c)) ;;
  match query (lib E) c text with
  | Raise e => raise e
  | Return (msg, usage, hist) =>
      set_messages h hist ;; ret (msg, usage)
  end.

(** ** [class SessionData] *)

(** [SessionData.__init__]: the one place where the timestamps are set. *)
Definition SessionData_init (E : Env) (sessionId : string)
    (modelConfig : ModelConfig) (chatter : option handle) : SessionData :=
  let createdAt := int_of_float (now E) in
  mkSessionData modelConfig chatter sessionId createdAt createdAt MAX_AGE.

(** What [SessionData.chat] hands back: a bare [return], [return False], or
    the pair [(msg, usage)]. *)
Inductive ChatReturn : Type :=
| PyNone
| PyFalse
| Reply (msg : string) (usage : Usage).

(** One turn of the loop of [_setup_messages]. *)
Definition setup_message (h : handle) (msg : Message) : M unit :=
  if String.eqb (role msg) "system" then
    append_system_message h (content msg)
  else if String.eqb (role msg) "assistant" then
    append_ai_message h (content msg)
  else if String.eqb (role msg) "user" then
    append_user_message h (content msg)
  else ret tt.

(** The method returns [False] without a chatter and falls off its end
    otherwise. *)
Definition _setup_messages (self : SessionData) (openai_msgs : list Message)
    : M (option bool) :=
  match chatter self with
  | None => ret (Some false)
  | Some h =>
      set_messages h [] ;;
      for_each openai_msgs (setup_message h) ;;
      ret None
  end.
Arguments _setup_messages : simpl never.

(** [ragConfig[...]]: subscripting [None] is a [TypeError]. *)
Definition subscript_ragConfig (ragConfig : option RagConfig) : M RagConfig :=
  match ragConfig with
  | Some rc => ret rc
  | None => raise (TypeError "'NoneType' object is not subscriptable")
  end.

(** Lines 79-107 of [SessionData.chat]: the retrieval set-up, the replay of
    the earlier messages and the query. *)
Definition SessionData_chat_query (E : Env) (self : SessionData) (h : handle)
    (msgs : list Message) (api_key : option string)
    (ragConfig : option RagConfig) (useRAG : bool) : M ChatReturn :=
  let '(is_azure, azure_deployment, endpoint) :=
    get_azure_embedding_deployment E in
  rc <- subscript_ragConfig ragConfig ;;
  let emb :=
    mkDocumentEmbedder true useRAG (chunkSize rc) (overlapSize rc)
      (splitByChar rc) (resultNum rc) api_key is_azure azure_deployment
      endpoint (connectionArgs rc) in
  set_rag_agent h emb ;;
  (if useRAG then rag_agent_connect E h emb else ret tt) ;;
  let text := content (last msgs (mkMessage "" "")) in
  let msgs' := removelast msgs in
  _setup_messages self msgs' ;;
  try_except
    (r <- chatter_query E h text ;;
     let '(msg, usage) := r in
     ret (Reply msg usage))
    (fun e => logger_error e ;; raise e).

Definition SessionData_chat (E : Env) (self : SessionData)
    (msgs : list Message) (authKey : option string)
    (ragConfig : option RagConfig) (useRAG : bool) : M ChatReturn :=
  match chatter self with
  | None => ret PyNone
  | Some h =>
      match msgs with
      | [] => ret PyNone
      | _ :: _ =>
          let api_key := authKey in
          c <- deref h ;;
          if negb (is_azure_kind (kind c)) then
            fun w =>
              if negb (truthy (openai_api_key w)) || negb (has_chat c) then
                if negb (truthy authKey) then (Return PyFalse, w)
                else
                  (chatter_set_api_key E h api_key (Some (sessionId self)) ;;
                   SessionData_chat_query E self h msgs api_key ragConfig
                     useRAG) w
              else
                SessionData_chat_query E self h msgs api_key ragConfig
                  useRAG w
          else
            SessionData_chat_query E self h msgs api_key ragConfig useRAG
      end
  end.

(** ** The module's functions *)

Definition environ_is (E : Env) (name value : string) : bool :=
  match PyDict.get name (environ E) with
  | Some v => String.eqb v value
  | None => false
  end.

Definition setitem (sessionId : string) (sd : SessionData) : M unit :=
  d <- get_dict ;; put_dict (PyDict.set sessionId sd d).

Definition initialize_conversation (E : Env) (sessionId : string)
    (modelConfig : ModelConfig) : M unit :=
  rlock_acquire ;;
  try_finally
    (try_except
       (if environ_is E (OPENAI_API_TYPE E) "azure" then
          logger_info (InfoCreate AzureGptConversation sessionId) ;;
          deployment_name <- os_environ E (OPENAI_DEPLOYMENT_NAME E) ;;
          model_name <- os_environ E (OPENAI_MODEL E) ;;
          version <- os_environ E (OPENAI_API_VERSION E) ;;
          base_url <- os_environ E (AZURE_OPENAI_ENDPOINT E) ;;
          chatter <- new_conversation E
                       (AzureArgs deployment_name model_name
                          (get_rag_agent_prompts E) version base_url) ;;
          key <- os_environ E (OPENAI_API_KEY E) ;;
          chatter_set_api_key E chatter (Some key) None ;;
          setitem sessionId
            (SessionData_init E sessionId modelConfig (Some chatter))
        else
          model <- getitem modelConfig "model" ;;
          if pyval_is_str model "mistral-wasm" then
            logger_info (InfoCreate WasmConversation sessionId) ;;
            chatter <- new_conversation E (WasmArgs "mistral-wasm") ;;
            setitem sessionId
              (SessionData_init E sessionId modelConfig (Some chatter))
          else
            logger_info (InfoCreate GptConversation sessionId) ;;
            chatter <- new_conversation E
                         (GptArgs "gpt-3.5-turbo" (get_rag_agent_prompts E)) ;;
            setitem sessionId
              (SessionData_init E sessionId modelConfig (Some chatter)))
       (fun e => logger_error e ;; raise e))
    rlock_release.

Definition has_conversation (sessionId : string) : M bool :=
  rlock_acquire ;;
  try_finally
    (d <- get_dict ;; ret (PyDict.mem sessionId d))
    rlock_release.

Definition get_conversation (E : Env) (sessionId : string) : M SessionData :=
  rlock_acquire ;;
  try_finally
    (try_except
       (d <- get_dict ;;
        (if negb (PyDict.mem sessionId d) then
           initialize_conversation E sessionId defaultModelConfig
         else ret tt) ;;
        d' <- get_dict ;;
        getitem d' sessionId)
       (fun e => logger_error e ;; raise e))
    rlock_release.

Definition remove_conversation (sessionId : string) : M unit :=
  rlock_acquire ;;
  try_finally
    (try_except
       (d <- get_dict ;;
        if negb (PyDict.mem sessionId d) then ret tt
        else put_dict (PyDict.del sessionId d))
       (fun e => logger_error e))
    rlock_release.

Definition chat (E : Env) (sessionId : string) (msgs : list Message)
    (authKey : option string) (ragConfig : option RagConfig) (useRAG : bool)
    : M ChatReturn :=
  rlock_acquire ;;
  try_finally
    (try_except
       (conversation <- get_conversation E sessionId ;;
        logger_info (InfoGetConversation sessionId) ;;
        SessionData_chat E conversation msgs authKey ragConfig useRAG)
       (fun e => logger_error e ;; raise e))
    rlock_release.

(** One turn of the first loop of [recycle_conversations]; [sessionsToRemove]
    is the local list the loop appends to.  What [get_conversation] hands
    back is a record, never [None], so the [assert] holds. *)
Definition recycle_scan (E : Env) (now : Q) (sid : string)
    (sessionsToRemove : list string) : M (list string) :=
  conversation <- get_conversation E sid ;;
  logger_info (InfoRecycleSession sid (refreshedAt conversation)
                 (maxAge conversation)) ;;
  if int_lt_float (refreshedAt conversation + maxAge conversation) now
  then ret (sessionsToRemove ++ [sessionId conversation])
  else ret sessionsToRemove.

Definition recycle_conversations (E : Env) : M unit :=
  logger_info InfoRecycle ;;
  rlock_acquire ;;
  let now := now E in
  try_finally
    (try_except
       (d <- get_dict ;;
        sessionsToRemove <- for_fold (PyDict.keys d) [] (recycle_scan E now) ;;
        for_each sessionsToRemove remove_conversation)
       (fun e => logger_error e ;; raise e))
    rlock_release.

(** ** Notions the properties are stated with *)

(** The world after some more events. *)
Definition emitting (evs : list Event) (w : World) : World :=
  mkWorld (conversationsDict w) (rlock w) (heap w) (openai_api_key w)
          (trace w ++ evs).

(** The level of the lock after a run of events, for a thread that starts it
    at level [d]. *)
Fixpoint lock_run (d : nat) (evs : list Event) : nat :=
  match evs with
  | [] => d
  | Acquire :: evs' => lock_run (S d) evs'
  | Release :: evs' => lock_run (pred d) evs'
  | _ :: evs' => lock_run d evs'
  end.

(** The level at which the thread holds the lock at each query of a run
    ([0]: it does not hold it). *)
Fixpoint query_levels (d : nat) (evs : list Event) : list nat :=
  match evs with
  | [] => []
  | Acquire :: evs' => query_levels (S d) evs'
  | Release :: evs' => query_levels (pred d) evs'
  | Query _ _ _ :: evs' => d :: query_levels d evs'
  | _ :: evs' => query_levels d evs'
  end.

(** A run that issues no query and leaves the lock at the level it found. *)
Definition quiet (evs : list Event) : Prop :=
  forall d, query_levels d evs = [] /\ lock_run d evs = d.

(** A run without lock operations. *)
Definition lockfree (evs : list Event) : bool :=
  forallb (fun ev => match ev with Acquire | Release => false | _ => true end)
          evs.

(** A computation that leaves the registry and the lock as they are: it may
    change the heap and [openai.api_key] and emit events other than lock
    operations. *)
Definition frame_step (w w' : World) : Prop :=
  exists hp key evs,
    w' = emitting evs
           (mkWorld (conversationsDict w) (rlock w) hp key (trace w))
    /\ lockfree evs = true.

Definition frames {A} (c : M A) : Prop :=
  forall w, frame_step w (snd (c w)).

(** A run in which no error is logged. *)
Definition unlogged (evs : list Event) : Prop :=
  forall e, ~ In (LogError e) evs.

(** The identifiers a scan that runs to its end collects. *)
Definition to_remove (now : Q) (d : PyDict.t SessionData) (l : list string)
    : list string :=
  flat_map
    (fun k =>
       match PyDict.get k d with
       | Some r =>
           if int_lt_float (refreshedAt r + maxAge r) now
           then [sessionId r] else []
       | None => []
       end) l.

(** The arguments [initialize_conversation] constructs the engine with: the
    variant is chosen by the environment first, by the model name second. *)
Definition selected_args (E : Env) (cfg : ModelConfig) : outcome CtorArgs :=
  if environ_is E (OPENAI_API_TYPE E) "azure" then
    match PyDict.get (OPENAI_DEPLOYMENT_NAME E) (environ E),
          PyDict.get (OPENAI_MODEL E) (environ E),
          PyDict.get (OPENAI_API_VERSION E) (environ E),
          PyDict.get (AZURE_OPENAI_ENDPOINT E) (environ E) with
    | Some d, Some m, Some v, Some u =>
        Return (AzureArgs d m (get_rag_agent_prompts E) v u)
    | None, _, _, _ => Raise (KeyError (OPENAI_DEPLOYMENT_NAME E))
    | _, None, _, _ => Raise (KeyError (OPENAI_MODEL E))
    | _, _, None, _ => Raise (KeyError (OPENAI_API_VERSION E))
    | _, _, _, None => Raise (KeyError (AZURE_OPENAI_ENDPOINT E))
    end
  else
    match PyDict.get "model" cfg with
    | None => Raise (KeyError "model")
    | Some model =>
        if pyval_is_str model "mistral-wasm"
        then Return (WasmArgs "mistral-wasm")
        else Return (GptArgs "gpt-3.5-turbo" (get_rag_agent_prompts E))
    end.

(** What setting up the engine of a new session comes to, with
    [openai.api_key] at [api_key]: the error that stops it, or the arguments
    the constructor is called with, whether the new object has a [chat]
    attribute in the end, and [openai.api_key] in the end.  The arguments
    must be found and the constructor must return; under Azure the API key
    variable must be set as well, and [set_api_key] on the new object must
    return. *)
Definition engine_setup (E : Env) (cfg : ModelConfig)
    (api_key : option string) : outcome (CtorArgs * bool * option string) :=
  match selected_args E cfg with
  | Raise e => Raise e
  | Return args =>
      match construct_raises (lib E) args with
      | Some e => Raise e
      | None =>
          if environ_is E (OPENAI_API_TYPE E) "azure" then
            match PyDict.get (OPENAI_API_KEY E) (environ E) with
            | None => Raise (KeyError (OPENAI_API_KEY E))
            | Some key =>
                match set_api_key (lib E)
                        (mkConversation args false [] None)
                        (Some key) None api_key with
                | Raise e => Raise e
                | Return (hc, k') => Return (args, hc, k')
                end
            end
          else Return (args, false, api_key)
      end
  end.

(** The history a list of earlier messages is replayed to: one entry per
    message with a known role, in order; the other messages leave none. *)
Definition replay_one (m : Message) : list ChatMessage :=
  if String.eqb (role m) "system" then [SystemMessage (content m)]
  else if String.eqb (role m) "assistant" then [AIMessage (content m)]
  else if String.eqb (role m) "user" then [HumanMessage (content m)]
  else [].

Definition replay (ms : list Message) : list ChatMessage :=
  flat_map replay_one ms.

Definition known_role (r : string) : bool :=
  String.eqb r "system" || String.eqb r "assistant" || String.eqb r "user".

(** The engine needs a key from the caller and has none yet (lines 70-75). *)
Definition key_missing (c : Conversation) (w : World) : bool :=
  negb (is_azure_kind (kind c))
  && (negb (truthy (openai_api_key w)) || negb (has_chat c)).

(** The retrieval agent [SessionData.chat] installs. *)
Definition embedder (E : Env) (api_key : option string) (rc : RagConfig)
    (useRAG : bool) : DocumentEmbedder :=
  let '(is_azure, azure_deployment, endpoint) :=
    get_azure_embedding_deployment E in
  mkDocumentEmbedder true useRAG (chunkSize rc) (overlapSize rc)
    (splitByChar rc) (resultNum rc) api_key is_azure azure_deployment
    endpoint (connectionArgs rc).

(** A record whose timestamps are those of its construction. *)
Definition record_ok (r : SessionData) : Prop :=
  refreshedAt r = createdAt r /\ maxAge r = MAX_AGE.

(** Every record is stored under its own identifier. *)
Definition store_keyed (d : PyDict.t SessionData) : Prop :=
  forall k r, PyDict.get k d = Some r -> sessionId r = k.

(** The deadline of a record has passed at [now]. *)
Definition expired (now : Q) (r : SessionData) : Prop :=
  (inject_Z (refreshedAt r + maxAge r) < now)%Q.

(** The calls a client of the module can make. *)
Inductive Call : Type :=
| CallInitialize (sid : string) (cfg : ModelConfig)
| CallHas (sid : string)
| CallGet (sid : string)
| CallRemove (sid : string)
| CallChat (sid : string) (msgs : list Message) (authKey : option string)
           (ragConfig : option RagConfig) (useRAG : bool)
| CallRecycle.

Definition run_call (E : Env) (c : Call) (w : World) : World :=
  match c with
  | CallInitialize sid cfg => snd (initialize_conversation E sid cfg w)
  | CallHas sid => snd (has_conversation sid w)
  | CallGet sid => snd (get_conversation E sid w)
  | CallRemove sid => snd (remove_conversation sid w)
  | CallChat sid msgs authKey rc useRAG =>
      snd (chat E sid msgs authKey rc useRAG w)
  | CallRecycle => snd (recycle_conversations E w)
  end.

(** A history of calls, each in the environment it ran in. *)
Fixpoint run_calls (cs : list (Env * Call)) (w : World) : World :=
  match cs with
  | [] => w
  | (E, c) :: cs' => run_calls cs' (run_call E c w)
  end.

(** The calls that may construct a record for [sid]. *)
Definition creates (sid : string) (c : Call) : bool :=
  match c with
  | CallInitialize s _ | CallGet s | CallChat s _ _ _ _ => String.eqb s sid
  | CallHas _ | CallRemove _ | CallRecycle => false
  end.

(** The calls that construct no record over an existing one and remove
    none on request. *)
Definition keeps_records (c : Call) : bool :=
  match c with
  | CallInitialize _ _ | CallRemove _ => false
  | _ => true
  end.

(** ** Concrete inputs *)

Definition lib0 : Biochatter :=
  mkBiochatter
    (fun _ => None)
    (fun _ key _ _ => Return (true, key))
    (fun _ => None)
    (fun c text =>
       Return ("hi", [("total_tokens", 3%Z)],
               messages c ++ [HumanMessage text; AIMessage "hi"])).

(** A library whose constructors fail. *)
Definition lib_down : Biochatter :=
  mkBiochatter
    (fun _ => Some (LibraryError "unsupported model"))
    (fun _ key _ _ => Return (true, key))
    (fun _ => None)
    (fun c text => Raise (LibraryError "no engine")).

Definition env_at (t : Q) (l : Biochatter) : Env :=
  mkEnv t [] "OPENAI_API_TYPE" "OPENAI_DEPLOYMENT_NAME" "OPENAI_MODEL"
        "OPENAI_API_VERSION" "AZURE_OPENAI_ENDPOINT" "OPENAI_API_KEY"
        (false, None, None) [] l.

Definition t0 : Q := 3400000000001 # 2.

Definition env0 : Env := env_at t0 lib0.

Definition env_down : Env := env_at t0 lib_down.

(** The same world a little more than three days later, and a little less. *)
Definition env_late : Env :=
  env_at (inject_Z (1700000000000 + MAX_AGE) + (1 # 2))%Q lib0.

Definition env_early : Env :=
  env_at (inject_Z (1700000000000 + MAX_AGE) - (1 # 2))%Q lib0.

(** An Azure deployment, with every variable set, and one without its API
    key. *)
Definition azure_environ : PyDict.t string :=
  [ ("OPENAI_API_TYPE", "azure");
    ("OPENAI_DEPLOYMENT_NAME", "chat");
    ("OPENAI_MODEL", "gpt-4");
    ("OPENAI_API_VERSION", "2024-02-01");
    ("AZURE_OPENAI_ENDPOINT", "https://example.openai.azure.com") ].


Definition env_azure : Env :=
  mkEnv t0 (azure_environ ++ [("OPENAI_API_KEY", "azure-key")])
        "OPENAI_API_TYPE" "OPENAI_DEPLOYMENT_NAME" "OPENAI_MODEL"
        "OPENAI_API_VERSION" "AZURE_OPENAI_ENDPOINT" "OPENAI_API_KEY"
        (false, None, None) [] lib0.

Definition rc0 : RagConfig :=
  mkRagConfig true 1000 0 3 (mkConnectionArgs "127.0.0.1" "19530" None None).

Definition hello : list Message := [mkMessage "user" "hello"].

Definition talk : list Message :=
  [ mkMessage "system" "be kind";
    mkMessage "tool" "42";
    mkMessage "assistant" "hi";
    mkMessage "user" "hello" ].

Definition wasmModelConfig : ModelConfig := [("model", PStr "mistral-wasm")].

(** The world after [initialize_conversation("abc", defaultModelConfig)]. *)
Definition w_abc : World :=
  snd (initialize_conversation env0 "abc" defaultModelConfig initial_world).

(** ** Notions for the further properties *)

(** The session a call names ([recycle_conversations] names none). *)
Definition target (c : Call) : option string :=
  match c with
  | CallInitialize sid _ | CallHas sid | CallGet sid | CallRemove sid
  | CallChat sid _ _ _ _ => Some sid
  | CallRecycle => None
  end.

(** Every stored record has a conversation, and it is on the heap. *)
Definition store_live (w : World) : Prop :=
  forall k r,
    PyDict.get k (conversationsDict w) = Some r ->
    exists h, chatter r = Some h /\ h < length (heap w).

(** No two stored records have the same conversation. *)
Definition store_unshared (w : World) : Prop :=
  forall k1 k2 r1 r2 h,
    PyDict.get k1 (conversationsDict w) = Some r1 ->
    PyDict.get k2 (conversationsDict w) = Some r2 ->
    chatter r1 = Some h ->
    chatter r2 = Some h ->
    k1 = k2.

(** A computation that changes no object of the heap but the one behind
    [h], and neither adds nor drops one. *)
Definition heap_step (h : handle) (w w' : World) : Prop :=
  length (heap w') = length (heap w)
  /\ forall h', h' <> h -> nth_error (heap w') h' = nth_error (heap w) h'.

Definition touches {A} (h : handle) (c : M A) : Prop :=
  forall w, heap_step h w (snd (c w)).

(** What a call may do to the records and the heap: the heap does not
    shrink, and a record found afterwards was there before or is the one
    record the call has constructed, with a conversation allocated by the
    call. *)
Definition grows (w w' : World) : Prop :=
  length (heap w) <= length (heap w')
  /\ exists sid,
       forall k r',
         PyDict.get k (conversationsDict w') = Some r' ->
         PyDict.get k (conversationsDict w) = Some r'
         \/ (k = sid
             /\ chatter r' = Some (length (heap w))
             /\ length (heap w) < length (heap w')).

(** A library whose retrieval store cannot be reached. *)
Definition lib_offline : Biochatter :=
  mkBiochatter
    (fun _ => None)
    (fun _ key _ _ => Return (true, key))
    (fun _ => Some (LibraryError "connect failed"))
    (fun c text =>
       Return ("hi", [("total_tokens", 3%Z)],
               messages c ++ [HumanMessage text; AIMessage "hi"])).

Definition env_offline : Env := env_at t0 lib_offline.

(** Session [abc] with its key in place. *)
Definition w_ready : World :=
  with_openai_api_key (Some "sk")
    (with_heap [mkConversation (GptArgs "gpt-3.5-turbo" []) true [] None]
       w_abc).

(** ** [app.py]: connection arguments and the document endpoints *)

(** The scalar values a connection argument or a document field takes. *)
Inductive jval : Type :=
| JStr (s : string)
| JInt (z : Z)
| JBool (b : bool)
| JNone.

(** [str(v)], which is also [f"{v}"], on such a value. *)
Definition format (v : jval) : string :=
  match v with
  | JStr s => s
  | JInt z => NilZero.string_of_int (Z.to_int z)
  | JBool true => "True"
  | JBool false => "False"
  | JNone => "None"
  end.

Definition type_name (v : jval) : string :=
  match v with
  | JStr _ => "str"
  | JInt _ => "int"
  | JBool _ => "bool"
  | JNone => "NoneType"
  end.

(** [str.lower] on the ASCII letters; no other character lowers to a letter
    of ["local"]. *)
Definition lower_char (c : ascii) : ascii :=
  let n := nat_of_ascii c in
  if (65 <=? n)%nat && (n <=? 90)%nat then ascii_of_nat (n + 32) else c.

Fixpoint lower (s : string) : string :=
  match s with
  | EmptyString => EmptyString
  | String c s' => String (lower_char c) (lower s')
  end.

(** The exceptions the endpoints tell apart, each with its [str(e)]. *)
Inductive pyexc : Type :=
| MilvusException (code : Z) (message : string) (text : string)
| Exception (text : string).

Definition str_exc (e : pyexc) : string :=
  match e with
  | MilvusException _ _ text => text
  | Exception text => text
  end.

Inductive attempt (A : Type) : Type :=
| Done (a : A)
| Failed (e : pyexc).
Arguments Done {A} a.
Arguments Failed {A} e.

Definition RAG_KG : string := "KG".
Definition RAG_VECTORSTORE : string := "VS".

(** [connection_args.get("host", "").lower()]: only a string has the
    method. *)
Definition host_lower (connection_args : PyDict.t jval) : attempt string :=
  match PyDict.get "host" connection_args with
  | None => Done (lower "")
  | Some (JStr s) => Done (lower s)
  | Some v =>
      Failed (Exception ("'" ++ type_name v
                         ++ "' object has no attribute 'lower'"))
  end.

(** [os.environ[name]] when the variable is set, ["127.0.0.1"] otherwise. *)
Definition environ_or_loopback (environ : PyDict.t string) (name : string)
    : string :=
  match PyDict.get name environ with
  | None => "127.0.0.1"
  | Some v => v
  end.

(** The dictionary is updated in place and handed back; the value returned
    here is its content afterwards. *)
Definition process_connection_args (environ : PyDict.t string) (rag : string)
    (connection_args : PyDict.t jval) : attempt (PyDict.t jval) :=
  if String.eqb rag RAG_VECTORSTORE then
    match host_lower connection_args with
    | Failed e => Failed e
    | Done h =>
        let connection_args :=
          if String.eqb h "local"
          then PyDict.set "host" (JStr (environ_or_loopback environ "HOST"))
                 connection_args
          else connection_args in
        let port :=
          match PyDict.get "port" connection_args with
          | Some v => v
          | None => JStr "19530"
          end in
        Done (PyDict.set "port" (JStr (format port)) connection_args)
    end
  else if String.eqb rag RAG_KG then
    match host_lower connection_args with
    | Failed e => Failed e
    | Done h =>
        let connection_args :=
          if String.eqb h "local"
          then PyDict.set "host" (JStr (environ_or_loopback environ "KGHOST"))
                 connection_args
          else connection_args in
        let port :=
          match PyDict.get "port" connection_args with
          | Some v => v
          | None => JStr "7687"
          end in
        Done (PyDict.set "port" (JStr (format port)) connection_args)
    end
  else Done connection_args.

(** The variable and the default port of a backend kind, as the two
    branches of [process_connection_args] have them. *)
Definition host_variable (rag : string) : string :=
  if String.eqb rag RAG_VECTORSTORE then "HOST" else "KGHOST".

Definition default_port (rag : string) : string :=
  if String.eqb rag RAG_VECTORSTORE then "19530" else "7687".

Definition known_backend (rag : string) : bool :=
  String.eqb rag RAG_VECTORSTORE || String.eqb rag RAG_KG.

(** [vars(connectionArgs)]: the fields of the request model as a
    dictionary. *)
Definition optional (o : option string) : jval :=
  match o with
  | Some s => JStr s
  | None => JNone
  end.

Definition vars (c : ConnectionArgs) : PyDict.t jval :=
  [ ("host", JStr (host c));
    ("port", JStr (port c));
    ("user", optional (user c));
    ("password", optional (password c)) ].

(** The codes of [src.constants], by name. *)
Inductive ErrorCode : Type :=
| ERROR_OK
| ERROR_MILVUS_CONNECT_FAILED
| ERROR_MILVUS_UNKNOWN
| ERROR_UNKNOW.

(** The values of a response. *)
Inductive rval : Type :=
| RStr (s : string)
| RCode (c : ErrorCode)
| RDocs (docs : list (PyDict.t jval)).

(** What the endpoints call outside this module: [src.utils.get_auth], the
    functions of [src.document_embedder] and of [src.kg_agent], with the
    truth value of a connection status, [pymilvus.Status.CONNECT_FAILED]
    and the text [ERRSTR_MILVUS_CONNECT_FAILED]. *)
Record Services : Type := mkServices {
  get_auth : option string -> attempt (option string);
  get_all_documents :
    option string -> PyDict.t jval -> option (list string)
    -> attempt (list (PyDict.t jval));
  remove_document :
    string -> option string -> PyDict.t jval -> option (list string)
    -> attempt unit;
  get_vectorstore_connection_status :
    PyDict.t jval -> option string -> attempt bool;
  get_kg_connection_status : PyDict.t jval -> attempt bool;
  CONNECT_FAILED : Z;
  ERRSTR_MILVUS_CONNECT_FAILED : string
}.

Definition and_then {A B} (a : attempt A) (k : A -> attempt B) : attempt B :=
  match a with
  | Done x => k x
  | Failed e => Failed e
  end.

(** [post_process] of [getAllDocuments]; [doc["id"]] of a document without
    an id is a [KeyError]. *)
Fixpoint post_process (docs : list (PyDict.t jval))
    : attempt (list (PyDict.t jval)) :=
  match docs with
  | [] => Done []
  | doc :: rest =>
      match PyDict.get "id" doc with
      | None => Failed (Exception "'id'")
      | Some v =>
          and_then (post_process rest) (fun rest' =>
          Done (PyDict.set "id" (JStr (format v)) doc :: rest'))
      end
  end.

(** The two [except] clauses that [newDocument], [getAllDocuments] and
    [removeDocument] end with. *)
Definition document_error (X : Services) (e : pyexc) : PyDict.t rval :=
  match e with
  | MilvusException code message _ =>
      if (code =? CONNECT_FAILED X)%Z
      then [ ("error", RStr (ERRSTR_MILVUS_CONNECT_FAILED X));
             ("code", RCode ERROR_MILVUS_CONNECT_FAILED) ]
      else [ ("error", RStr message); ("code", RCode ERROR_MILVUS_UNKNOWN) ]
  | Exception _ => [ ("error", RStr (str_exc e)); ("code", RCode ERROR_UNKNOW) ]
  end.

Definition getAllDocuments (X : Services) (environ : PyDict.t string)
    (authorization : option string) (connectionArgs : ConnectionArgs)
    (docIds : option (list string)) : attempt (PyDict.t rval) :=
  and_then (get_auth X authorization) (fun auth =>
  and_then (process_connection_args environ RAG_VECTORSTORE
              (vars connectionArgs)) (fun connection_args =>
  match and_then (get_all_documents X auth connection_args docIds)
          post_process with
  | Done docs => Done [ ("documents", RDocs docs); ("code", RCode ERROR_OK) ]
  | Failed e => Done (document_error X e)
  end)).

Definition removeDocument (X : Services) (environ : PyDict.t string)
    (authorization : option string) (connectionArgs : ConnectionArgs)
    (docId : string) (docIds : option (list string))
    : attempt (PyDict.t rval) :=
  and_then (get_auth X authorization) (fun auth =>
  and_then (process_connection_args environ RAG_VECTORSTORE
              (vars connectionArgs)) (fun connection_args =>
  if (String.length docId =? 0)%nat
  then Done [ ("error", RStr "Failed to find document") ]
  else
    match remove_document X docId auth connection_args docIds with
    | Done _ => Done [ ("id", RStr docId); ("code", RCode ERROR_OK) ]
    | Failed e => Done (document_error X e)
    end)).

Definition status_text (connected : bool) : string :=
  if connected then "connected" else "disconnected".

Definition getConnectionStatus (X : Services) (environ : PyDict.t string)
    (authorization : option string) (connectionArgs : ConnectionArgs)
    : attempt (PyDict.t rval) :=
  match
    and_then (get_auth X authorization) (fun auth =>
    and_then (process_connection_args environ RAG_VECTORSTORE
                (vars connectionArgs)) (fun connection_args =>
    get_vectorstore_connection_status X connection_args auth))
  with
  | Done connected =>
      Done [ ("status", RStr (status_text connected));
             ("code", RCode ERROR_OK) ]
  | Failed (MilvusException _ message _) =>
      Done [ ("error", RStr message); ("code", RCode ERROR_MILVUS_UNKNOWN) ]
  | Failed e => Done [ ("error", RStr (str_exc e)); ("code", RCode ERROR_UNKNOW) ]
  end.

Definition getKGConnectionStatus (X : Services) (environ : PyDict.t string)
    (connectionArgs : ConnectionArgs) : attempt (PyDict.t rval) :=
  match
    and_then (process_connection_args environ RAG_KG (vars connectionArgs))
      (get_kg_connection_status X)
  with
  | Done connected =>
      Done [ ("status", RStr (status_text connected));
             ("code", RCode ERROR_OK) ]
  | Failed e => Done [ ("error", RStr (str_exc e)); ("code", RCode ERROR_UNKNOW) ]
  end.

(** The code a response carries, if any. *)
Definition code_of (response : PyDict.t rval) : option ErrorCode :=
  match PyDict.get "code" response with
  | Some (RCode c) => Some c
  | _ => None
  end.

Definition has_id (doc : PyDict.t jval) : bool := PyDict.mem "id" doc.

(** Concrete requests and services. *)
Definition args_local : ConnectionArgs :=
  mkConnectionArgs "Local" "19530" None None.

Definition doc1 : PyDict.t jval := [ ("id", JInt 7); ("name", JStr "a.pdf") ].

Definition services0 : Services :=
  mkServices (fun a => Done a)
    (fun _ _ _ => Done [doc1])
    (fun _ _ _ _ => Done tt)
    (fun _ _ => Done true)
    (fun _ => Done true)
    2 "Failed to connect to Milvus".

(** What [post_process] does to one document. *)
Definition id_as_string (doc doc' : PyDict.t jval) : Prop :=
  exists v,
    PyDict.get "id" doc = Some v
    /\ PyDict.get "id" doc' = Some (JStr (format v))
    /\ forall k, k <> "id" -> PyDict.get k doc' = PyDict.get k doc.

(** ** Proof helpers *)

Ltac destruct_match :=
  match goal with
  | |- context [match ?x with _ => _ end] =>
      lazymatch x with
      | context [match _ with _ => _ end] => fail
      | _ => destruct x eqn:?
      end
  end.

Ltac unfold_py :=
  unfold setitem, put_dict, get_dict, getitem, os_environ, new_conversation,
    chatter_set_api_key, set_rag_agent, rag_agent_connect, set_messages,
    append_message, chatter_query, deref, store, logger_info, logger_error,
    emit, rlock_acquire, rlock_release, bind, ret, raise, try_except,
    try_finally in *.

Ltac unfold_world :=
  unfold emitting, record, with_rlock, with_dict, with_heap,
    with_openai_api_key in *; simpl in *.

Ltac solve_quiet := intros ?; split; reflexivity.

Ltac frames_case :=
  match goal with
  | |- frames (match ?x with _ => _ end) => destruct x
  end.

(** * Facts about dictionaries *)

Section DictFacts.
Context {V : Type}.
Implicit Types (d : PyDict.t V) (k : string) (v : V).

Lemma get_set_eq k v d : PyDict.get k (PyDict.set k v d) = Some v.
Proof.
  induction d as [|[k' v'] d IH]; simpl.
  - now rewrite String.eqb_refl.
  - destruct (String.eqb k k') eqn:Hk; simpl.
    + now rewrite String.eqb_refl.
    + now rewrite Hk.
Qed.

Lemma get_set_ne k k' v d :
  k <> k' -> PyDict.get k' (PyDict.set k v d) = PyDict.get k' d.
Proof.
  intros Hne. apply String.eqb_neq in Hne.
  assert (Hne' : String.eqb k' k = false) by now rewrite String.eqb_sym.
  induction d as [|[k0 v0] d IH]; simpl.
  - now rewrite Hne'.
  - destruct (String.eqb k k0) eqn:Hk; simpl.
    + apply String.eqb_eq in Hk; subst k0. now rewrite Hne'.
    + now rewrite IH.
Qed.

Lemma get_del_eq k d : PyDict.get k (PyDict.del k d) = None.
Proof.
  induction d as [|[k' v'] d IH]; simpl; auto.
  destruct (String.eqb k k') eqn:Hk; simpl; auto.
  now rewrite Hk.
Qed.

Lemma get_del_ne k k' d :
  k <> k' -> PyDict.get k' (PyDict.del k d) = PyDict.get k' d.
Proof.
  intros Hne. apply String.eqb_neq in Hne.
  induction d as [|[k0 v0] d IH]; simpl; auto.
  destruct (String.eqb k k0) eqn:Hk; simpl.
  - apply String.eqb_eq in Hk; subst k0.
    rewrite String.eqb_sym, Hne. exact IH.
  - now rewrite IH.
Qed.

Lemma del_absent k d : PyDict.get k d = None -> PyDict.del k d = d.
Proof.
  induction d as [|[k' v'] d IH]; simpl; auto.
  destruct (String.eqb k k'); [discriminate|].
  intros H. now rewrite IH.
Qed.

Lemma del_del k d : PyDict.del k (PyDict.del k d) = PyDict.del k d.
Proof. apply del_absent, get_del_eq. Qed.

Lemma mem_true_iff k d : PyDict.mem k d = true <-> exists v, PyDict.get k d = Some v.
Proof.
  unfold PyDict.mem. destruct (PyDict.get k d) as [v|]; split; intros H;
    eauto; try discriminate. now destruct H.
Qed.

Lemma mem_false_iff k d : PyDict.mem k d = false <-> PyDict.get k d = None.
Proof.
  unfold PyDict.mem. destruct (PyDict.get k d); split; intros H;
    auto; discriminate.
Qed.

Lemma in_keys_get k d : In k (PyDict.keys d) -> exists v, PyDict.get k d = Some v.
Proof.
  induction d as [|[k' v'] d IH]; simpl; [tauto|].
  intros [Heq|Hin].
  - subst. rewrite String.eqb_refl. eauto.
  - destruct (String.eqb k k'); eauto.
Qed.

Lemma get_in_keys k v d : PyDict.get k d = Some v -> In k (PyDict.keys d).
Proof.
  induction d as [|[k' v'] d IH]; simpl; [discriminate|].
  destruct (String.eqb k k') eqn:Hk.
  - apply String.eqb_eq in Hk. auto.
  - auto.
Qed.

(** Deleting a list of keys, one after the other. *)
Lemma get_fold_del k (l : list string) d :
  PyDict.get k (fold_left (fun d' s => PyDict.del s d') l d)
  = if existsb (String.eqb k) l then None else PyDict.get k d.
Proof.
  revert d. induction l as [|s l IH]; intros d; simpl; auto.
  rewrite IH. destruct (String.eqb k s) eqn:Hk; simpl.
  - apply String.eqb_eq in Hk; subst s.
    rewrite get_del_eq. now destruct (existsb _ l).
  - rewrite get_del_ne; auto.
    intros ->. now rewrite String.eqb_refl in Hk.
Qed.
End DictFacts.

(** * The runs of the store operations *)

Lemma emitting_emitting e1 e2 w :
  emitting e2 (emitting e1 w) = emitting (e1 ++ e2) w.
Proof. unfold emitting; simpl. now rewrite app_assoc. Qed.

Lemma has_conversation_run sid w :
  has_conversation sid w
  = (Return (PyDict.mem sid (conversationsDict w)),
     emitting [Acquire; Release] w).
Proof.
  destruct w; unfold has_conversation, emitting; simpl.
  unfold bind, try_finally; simpl. unfold record, with_rlock; simpl.
  now rewrite <- app_assoc.
Qed.

Lemma remove_conversation_run sid w :
  remove_conversation sid w
  = (Return tt,
     emitting [Acquire; Release]
       (with_dict (PyDict.del sid (conversationsDict w)) w)).
Proof.
  destruct w as [d n hp key tr].
  unfold remove_conversation, emitting, bind, try_finally, try_except; simpl.
  destruct (PyDict.mem sid d) eqn:Hm; simpl.
  - unfold record, with_rlock, with_dict; simpl. now rewrite <- app_assoc.
  - apply mem_false_iff in Hm. rewrite (del_absent _ _ Hm).
    unfold record, with_rlock, with_dict; simpl. now rewrite <- app_assoc.
Qed.

Lemma quiet_nil : quiet [].
Proof. intros d; split; reflexivity. Qed.

Lemma nth_error_snoc {A} (l : list A) (x : A) :
  nth_error (l ++ [x]) (length l) = Some x.
Proof. induction l; simpl; auto. Qed.

Lemma list_update_snoc {A} (l : list A) (x y : A) :
  list_update (l ++ [x]) (length l) y = l ++ [y].
Proof. induction l; simpl; auto. now f_equal. Qed.

Lemma list_update_length {A} (l : list A) i (y : A) :
  length (list_update l i y) = length l.
Proof.
  revert i; induction l; intros [|i]; simpl; auto.
Qed.

Lemma nth_error_list_update_eq {A} (l : list A) i (x y : A) :
  nth_error l i = Some x -> nth_error (list_update l i y) i = Some y.
Proof.
  revert i; induction l; intros [|i]; simpl; try discriminate; auto.
Qed.

Lemma nth_error_list_update_ne {A} (l : list A) i j (y : A) :
  i <> j -> nth_error (list_update l i y) j = nth_error l j.
Proof.
  revert i j; induction l; intros [|i] [|j]; simpl; auto; try congruence.
Qed.

Lemma list_update_twice {A} (l : list A) i (x y : A) :
  list_update (list_update l i x) i y = list_update l i y.
Proof.
  revert i; induction l; intros [|i]; simpl; auto. now f_equal.
Qed.

Lemma initialize_conversation_returns E sid cfg w :
  fst (initialize_conversation E sid cfg w) = Return tt ->
  exists args hc key evs,
    selected_args E cfg = Return args
    /\ construct_raises (lib E) args = None
    /\ snd (initialize_conversation E sid cfg w)
       = emitting evs
           (mkWorld
              (PyDict.set sid
                 (SessionData_init E sid cfg (Some (length (heap w))))
                 (conversationsDict w))
              (rlock w)
              (heap w ++ [mkConversation args hc [] None])
              key (trace w))
    /\ quiet evs.
Proof.
  destruct w as [d n hp key tr].
  unfold initialize_conversation, selected_args.
  unfold_py. simpl.
  repeat (destruct_match; simpl; unfold_world; try discriminate).
  all: intros _;
    repeat match goal with
       | H : nth_error (_ ++ [_]) (length _) = Some _ |- _ =>
           rewrite nth_error_snoc in H; injection H as <-
       end;
    rewrite ?list_update_snoc;
    rewrite <- ?app_assoc; simpl.
  all: do 4 eexists; split; [reflexivity|];
    split; [eassumption|]; split; [reflexivity|solve_quiet].
Qed.

Lemma initialize_conversation_raises E sid cfg w e :
  fst (initialize_conversation E sid cfg w) = Raise e ->
  exists hp key evs,
    snd (initialize_conversation E sid cfg w)
    = emitting evs
        (mkWorld (conversationsDict w) (rlock w) hp key (trace w))
    /\ quiet evs
    /\ In (LogError e) evs.
Proof.
  destruct w as [d n hp key tr].
  unfold initialize_conversation.
  unfold_py. simpl.
  repeat (destruct_match; simpl; unfold_world; try discriminate).
  all: intros [= <-];
    repeat match goal with
       | H : nth_error (_ ++ [_]) (length _) = Some _ |- _ =>
           rewrite nth_error_snoc in H; injection H as <-
       end;
    rewrite ?list_update_snoc;
    rewrite <- ?app_assoc; simpl.
  all: do 3 eexists; split; [reflexivity|]; split; [solve_quiet|];
    simpl; tauto.
Qed.

(** When the arguments are found and the constructor raises, so does the
    call. *)
Lemma initialize_conversation_ctor_fails E sid cfg w args e :
  selected_args E cfg = Return args ->
  construct_raises (lib E) args = Some e ->
  fst (initialize_conversation E sid cfg w) = Raise e.
Proof.
  destruct w as [d n hp key tr].
  unfold initialize_conversation, selected_args.
  unfold_py. simpl.
  repeat (destruct_match; simpl; unfold_world; try discriminate).
  all: intros [= <-] Hc; congruence.
Qed.

(** The call returns exactly when the engine can be set up, and then with
    the new record stored and the new object last on the heap; otherwise it
    raises the error that stopped the setup. *)
Lemma initialize_conversation_setup E sid cfg w :
  match engine_setup E cfg (openai_api_key w) with
  | Return (args, hc, key) =>
      exists evs,
        initialize_conversation E sid cfg w
        = (Return tt,
           emitting evs
             (mkWorld
                (PyDict.set sid
                   (SessionData_init E sid cfg (Some (length (heap w))))
                   (conversationsDict w))
                (rlock w)
                (heap w ++ [mkConversation args hc [] None])
                key (trace w)))
        /\ quiet evs
  | Raise e => fst (initialize_conversation E sid cfg w) = Raise e
  end.
Proof.
  destruct w as [d n hp key tr].
  unfold engine_setup, initialize_conversation, selected_args.
  unfold_py. simpl.
  repeat (rewrite ?nth_error_snoc; destruct_match; simpl; unfold_world;
          rewrite ?nth_error_snoc; try discriminate; try congruence).
  all: repeat match goal with
       | H : Return _ = Return _ |- _ => injection H as <-
       | H : Raise _ = Raise _ |- _ => injection H as <-
       | H : nth_error (_ ++ [_]) (length _) = Some _ |- _ =>
           rewrite nth_error_snoc in H; injection H as <-
       end;
    rewrite ?list_update_snoc;
    rewrite <- ?app_assoc; simpl.
  all: subst;
    try match goal with
      | H1 : ?x = Return _, H2 : ?x = Return _ |- _ =>
          rewrite H1 in H2; injection H2; intros; subst
      end.
  all: try reflexivity.
  all: eexists; split; [reflexivity|solve_quiet].
Qed.

(** * Runs of events *)

Lemma lock_run_app d e1 e2 :
  lock_run d (e1 ++ e2) = lock_run (lock_run d e1) e2.
Proof.
  revert d; induction e1 as [|ev e1 IH]; intros d; simpl; auto.
  destruct ev; auto.
Qed.

Lemma query_levels_app d e1 e2 :
  query_levels d (e1 ++ e2)
  = query_levels d e1 ++ query_levels (lock_run d e1) e2.
Proof.
  revert d; induction e1 as [|ev e1 IH]; intros d; simpl; auto.
  destruct ev; auto. now rewrite IH.
Qed.

Lemma quiet_app e1 e2 : quiet e1 -> quiet e2 -> quiet (e1 ++ e2).
Proof.
  intros H1 H2 d. destruct (H1 d) as [Q1 L1].
  rewrite query_levels_app, lock_run_app, Q1, L1. apply H2.
Qed.

Lemma quiet_locked evs : quiet evs -> quiet (Acquire :: evs ++ [Release]).
Proof.
  intros H d. destruct (H (S d)) as [Q L]. simpl.
  rewrite query_levels_app, lock_run_app, Q, L. simpl. auto.
Qed.

Lemma quiet_log e : quiet [LogError e].
Proof. solve_quiet. Qed.

(** * [get_conversation] *)

Lemma get_conversation_present E sid w r :
  PyDict.get sid (conversationsDict w) = Some r ->
  get_conversation E sid w = (Return r, emitting [Acquire; Release] w).
Proof.
  intros Hget. destruct w as [d n hp key tr]. simpl in Hget.
  unfold get_conversation. unfold_py. simpl.
  unfold PyDict.mem. rewrite Hget. simpl. rewrite Hget. simpl.
  unfold_world. now rewrite <- app_assoc.
Qed.

(** The world in which [get_conversation] calls [initialize_conversation]. *)
Lemma get_conversation_absent E sid w :
  PyDict.get sid (conversationsDict w) = None ->
  get_conversation E sid w
  = let w1 := record Acquire (with_rlock (S (rlock w)) w) in
    match initialize_conversation E sid defaultModelConfig w1 with
    | (Return _, w2) =>
        try_finally
          (try_except (getitem (conversationsDict w2) sid)
             (fun e => logger_error e ;; raise e))
          rlock_release w2
    | (Raise e, w2) =>
        try_finally (logger_error e ;; raise e) rlock_release w2
    end.
Proof.
  intros Hget. destruct w as [d n hp key tr]. simpl in Hget.
  unfold get_conversation. unfold_py. simpl.
  unfold PyDict.mem. rewrite Hget. simpl.
  unfold_world.
  destruct (initialize_conversation E sid defaultModelConfig _) as [[[]|e] w2];
    reflexivity.
Qed.

Lemma get_conversation_returns E sid w r :
  fst (get_conversation E sid w) = Return r ->
  (PyDict.get sid (conversationsDict w) = Some r
   /\ snd (get_conversation E sid w) = emitting [Acquire; Release] w)
  \/
  (PyDict.get sid (conversationsDict w) = None
   /\ r = SessionData_init E sid defaultModelConfig (Some (length (heap w)))
   /\ exists args hc key evs,
        selected_args E defaultModelConfig = Return args
        /\ construct_raises (lib E) args = None
        /\ snd (get_conversation E sid w)
           = emitting evs
               (mkWorld (PyDict.set sid r (conversationsDict w)) (rlock w)
                  (heap w ++ [mkConversation args hc [] None]) key (trace w))
        /\ quiet evs).
Proof.
  destruct (PyDict.get sid (conversationsDict w)) as [r0|] eqn:Hget.
  - rewrite (get_conversation_present E sid w r0 Hget). simpl.
    intros [= <-]. left; auto.
  - rewrite (get_conversation_absent E sid w Hget). cbv zeta.
    set (w1 := record Acquire (with_rlock (S (rlock w)) w)).
    destruct (initialize_conversation E sid defaultModelConfig w1)
      as [[[]|e] w2] eqn:Hinit.
    + pose proof (initialize_conversation_returns E sid defaultModelConfig w1)
        as Hr.
      rewrite Hinit in Hr. simpl in Hr.
      destruct (Hr eq_refl) as (args & hc & key & evs & Ha & Hc & Hw & Hq).
      subst w2. destruct w as [d n hp k0 tr]. simpl in *.
      unfold_py. unfold_world. rewrite get_set_eq. simpl.
      intros Heq. injection Heq as <-.
      right. split; [reflexivity|]. split; [reflexivity|].
      exists args, hc, key, (Acquire :: evs ++ [Release]).
      split; [assumption|]. split; [assumption|]. split.
      * now rewrite <- !app_assoc.
      * apply quiet_locked, Hq.
    + unfold_py. simpl. unfold_world.
      destruct (rlock w2); simpl; discriminate.
Qed.

Lemma get_conversation_raises E sid w e :
  fst (get_conversation E sid w) = Raise e ->
  PyDict.get sid (conversationsDict w) = None
  /\ fst (initialize_conversation E sid defaultModelConfig
            (record Acquire (with_rlock (S (rlock w)) w))) = Raise e
  /\ exists hp key evs,
       snd (get_conversation E sid w)
       = emitting evs
           (mkWorld (conversationsDict w) (rlock w) hp key (trace w))
       /\ quiet evs
       /\ In (LogError e) evs.
Proof.
  destruct (PyDict.get sid (conversationsDict w)) as [r0|] eqn:Hget.
  - rewrite (get_conversation_present E sid w r0 Hget). discriminate.
  - rewrite (get_conversation_absent E sid w Hget). cbv zeta.
    set (w1 := record Acquire (with_rlock (S (rlock w)) w)).
    destruct (initialize_conversation E sid defaultModelConfig w1)
      as [[[]|e'] w2] eqn:Hinit.
    + pose proof (initialize_conversation_returns E sid defaultModelConfig w1)
        as Hr.
      rewrite Hinit in Hr. simpl in Hr.
      destruct (Hr eq_refl) as (args & hc & key & evs & Ha & Hc & Hw & Hq).
      subst w2. destruct w as [d n hp k0 tr]. simpl in *.
      unfold_py. unfold_world. rewrite get_set_eq. simpl. discriminate.
    + pose proof (initialize_conversation_raises E sid defaultModelConfig w1 e')
        as Hr.
      rewrite Hinit in Hr. simpl in Hr.
      destruct (Hr eq_refl) as (hp' & key & evs & Hw & Hq & Hin).
      subst w2. destruct w as [d n hp k0 tr]. simpl in *.
      unfold_py. unfold_world.
      intros [= <-]. split; [reflexivity|]. split; [reflexivity|].
      exists hp', key, (Acquire :: (evs ++ [LogError e']) ++ [Release]).
      split; [|split].
      * now rewrite <- !app_assoc.
      * apply quiet_locked, quiet_app; auto. apply quiet_log.
      * right. apply in_or_app. left. apply in_or_app. now left.
Qed.

(** * [SessionData.chat] *)

Lemma with_heap_same w : with_heap (heap w) w = w.
Proof. now destruct w. Qed.

Lemma with_heap_with_heap h1 h2 w :
  with_heap h2 (with_heap h1 w) = with_heap h2 w.
Proof. reflexivity. Qed.

Lemma list_update_same {A} (l : list A) i (x : A) :
  nth_error l i = Some x -> list_update l i x = l.
Proof.
  revert i; induction l; intros [|i]; simpl; try discriminate.
  - now intros [= ->].
  - intros H. now rewrite IHl.
Qed.

Lemma append_message_run h m w c :
  nth_error (heap w) h = Some c ->
  append_message h m w
  = (Return tt,
     with_heap
       (list_update (heap w) h
          (mkConversation (ctor c) (has_chat c) (messages c ++ [m])
             (rag_agent c))) w).
Proof.
  intros H. unfold append_message. unfold_py. now rewrite H.
Qed.

Lemma setup_message_run h m w c :
  nth_error (heap w) h = Some c ->
  setup_message h m w
  = (Return tt,
     with_heap
       (list_update (heap w) h
          (mkConversation (ctor c) (has_chat c) (messages c ++ replay_one m)
             (rag_agent c))) w).
Proof.
  intros H. unfold setup_message, replay_one, append_system_message,
    append_ai_message, append_user_message.
  repeat destruct_match; try (now apply append_message_run).
  rewrite app_nil_r. unfold ret. destruct c; simpl.
  now rewrite (list_update_same _ _ _ H), with_heap_same.
Qed.

(** The loop of [_setup_messages] appends the replayed entries. *)
Lemma for_each_setup_message h ms : forall w c,
  nth_error (heap w) h = Some c ->
  for_each ms (setup_message h) w
  = (Return tt,
     with_heap
       (list_update (heap w) h
          (mkConversation (ctor c) (has_chat c) (messages c ++ replay ms)
             (rag_agent c))) w).
Proof.
  induction ms as [|m ms IH]; intros w c H; simpl.
  - rewrite app_nil_r. unfold ret. destruct c; simpl.
    now rewrite (list_update_same _ _ _ H), with_heap_same.
  - unfold bind. rewrite (setup_message_run h m w c H).
    erewrite IH.
    2:{ simpl. eapply nth_error_list_update_eq, H. }
    simpl. rewrite list_update_twice, <- app_assoc. reflexivity.
Qed.

Lemma setup_messages_run self h ms w c :
  chatter self = Some h ->
  nth_error (heap w) h = Some c ->
  _setup_messages self ms w
  = (Return None,
     with_heap
       (list_update (heap w) h
          (mkConversation (ctor c) (has_chat c) (replay ms) (rag_agent c)))
       w).
Proof.
  intros Hs H. unfold _setup_messages. rewrite Hs.
  unfold set_messages. unfold_py.
  rewrite H. cbv beta iota.
  erewrite for_each_setup_message.
  2:{ simpl. eapply nth_error_list_update_eq, H. }
  simpl. now rewrite list_update_twice.
Qed.

(** Whatever the handle, [_setup_messages] touches the heap only. *)
Lemma setup_message_heap_only h m w :
  exists r hp, setup_message h m w = (r, with_heap hp w).
Proof.
  destruct (nth_error (heap w) h) as [c|] eqn:H.
  - rewrite (setup_message_run h m w c H). eauto.
  - exists (if known_role (role m)
            then Raise (RuntimeError "dangling handle") else Return tt),
           (heap w).
    rewrite with_heap_same.
    unfold setup_message, known_role, append_system_message,
      append_ai_message, append_user_message, append_message.
    destruct (String.eqb (role m) "system"),
      (String.eqb (role m) "assistant"), (String.eqb (role m) "user");
      simpl; unfold_py; rewrite ?H; reflexivity.
Qed.

Lemma for_each_setup_message_heap_only h ms : forall w,
  exists r hp, for_each ms (setup_message h) w = (r, with_heap hp w).
Proof.
  induction ms as [|m ms IH]; intros w; simpl.
  - exists (Return tt), (heap w). now rewrite with_heap_same.
  - unfold bind.
    destruct (setup_message_heap_only h m w) as (r & hp & ->).
    destruct r as [[]|e]; [|exists (Raise e), hp; reflexivity].
    destruct (IH (with_heap hp w)) as (r' & hp' & ->).
    exists r', hp'. reflexivity.
Qed.

Lemma setup_messages_heap_only self ms w :
  exists r hp, _setup_messages self ms w = (r, with_heap hp w).
Proof.
  unfold _setup_messages. destruct (chatter self) as [h|].
  - unfold set_messages. unfold_py.
    destruct (nth_error (heap w) h) as [c|]; cbv beta iota.
    + match goal with
      | |- context [for_each ms (setup_message h) ?w1] =>
          destruct (for_each_setup_message_heap_only h ms w1)
            as (r & hp & ->)
      end.
      destruct r as [[]|e]; eexists; eexists; reflexivity.
    + exists (Raise (RuntimeError "dangling handle")), (heap w).
      now rewrite with_heap_same.
  - exists (Return (Some false)), (heap w). now rewrite with_heap_same.
Qed.

Lemma SessionData_chat_query_run E self h msgs api_key rc useRAG w c :
  chatter self = Some h ->
  nth_error (heap w) h = Some c ->
  let emb := embedder E api_key rc useRAG in
  let hist := replay (removelast msgs) in
  let text := content (last msgs (mkMessage "" "")) in
  let asked := mkConversation (ctor c) (has_chat c) hist (Some emb) in
  let evs := (if useRAG then [Connect h] else []) ++ [Query h text hist] in
  (useRAG = true -> connect_raises (lib E) emb = None) ->
  SessionData_chat_query E self h msgs api_key (Some rc) useRAG w
  = match query (lib E) asked text with
    | Return (msg, usage, hist') =>
        (Return (Reply msg usage),
         emitting evs
           (with_heap
              (list_update (heap w) h
                 (mkConversation (ctor c) (has_chat c) hist' (Some emb))) w))
    | Raise e =>
        (Raise e,
         emitting (evs ++ [LogError e])
           (with_heap (list_update (heap w) h asked) w))
    end.
Proof.
  intros Hs Hh emb hist text asked evs Hconn.
  subst emb evs asked. unfold SessionData_chat_query, embedder in *.
  destruct (get_azure_embedding_deployment E) as [[az dep] ep].
  destruct w as [d n hp key tr]. simpl in Hh.
  unfold subscript_ragConfig, set_rag_agent, rag_agent_connect, chatter_query,
    set_messages.
  destruct useRAG; [pose proof (Hconn eq_refl) as Hc|];
    unfold_py; simpl; rewrite Hh; simpl; rewrite ?Hc; simpl.
  all: erewrite setup_messages_run;
    [ | eassumption | simpl; eapply nth_error_list_update_eq, Hh ].
  all: simpl; unfold_world;
    rewrite ?list_update_twice;
    erewrite ?nth_error_list_update_eq by exact Hh; simpl;
    fold hist; fold text.
  all: destruct (query (lib E) _ text) as [[[msg usage] hist']|e]; simpl.
  all: rewrite ?list_update_twice;
    erewrite ?nth_error_list_update_eq by exact Hh; simpl;
    rewrite ?list_update_twice, <- ?app_assoc; reflexivity.
Qed.

(** * Computations that leave the registry and the lock alone *)

Lemma frame_step_refl w : frame_step w w.
Proof.
  exists (heap w), (openai_api_key w), []. split; [|reflexivity].
  destruct w; unfold emitting; simpl. now rewrite app_nil_r.
Qed.

Lemma frame_step_trans w1 w2 w3 :
  frame_step w1 w2 -> frame_step w2 w3 -> frame_step w1 w3.
Proof.
  intros (hp & key & evs & -> & Hl) (hp' & key' & evs' & -> & Hl').
  exists hp', key', (evs ++ evs'). split.
  - unfold emitting; simpl. now rewrite app_assoc.
  - unfold lockfree in *. rewrite forallb_app, Hl, Hl'. reflexivity.
Qed.

Lemma frames_ret {A} (a : A) : frames (ret a).
Proof. intros w. apply frame_step_refl. Qed.

Lemma frames_raise {A} e : frames (@raise A e).
Proof. intros w. apply frame_step_refl. Qed.

Lemma frames_bind {A B} (c : M A) (k : A -> M B) :
  frames c -> (forall a, frames (k a)) -> frames (bind c k).
Proof.
  intros Hc Hk w. unfold bind. specialize (Hc w).
  destruct (c w) as [[a|e] w1]; simpl in *; auto.
  eapply frame_step_trans; [exact Hc|]. apply Hk.
Qed.

Lemma frames_try_except {A} (c : M A) (h : exn -> M A) :
  frames c -> (forall e, frames (h e)) -> frames (try_except c h).
Proof.
  intros Hc Hh w. unfold try_except. specialize (Hc w).
  destruct (c w) as [[a|e] w1]; simpl in *; auto.
  eapply frame_step_trans; [exact Hc|]. apply Hh.
Qed.

Lemma frames_emit ev : lockfree [ev] = true -> frames (emit ev).
Proof.
  intros H w. exists (heap w), (openai_api_key w), [ev]. split; auto.
Qed.

Lemma frames_deref h : frames (deref h).
Proof.
  intros w. unfold deref. destruct (nth_error (heap w) h); apply frame_step_refl.
Qed.

Lemma frames_store h c : frames (store h c).
Proof.
  intros w. exists (list_update (heap w) h c), (openai_api_key w), [].
  split; [|reflexivity].
  destruct w; unfold emitting, store, with_heap; simpl. now rewrite app_nil_r.
Qed.

Lemma frames_for_each {A} (l : list A) (body : A -> M unit) :
  (forall x, frames (body x)) -> frames (for_each l body).
Proof.
  intros Hb. induction l as [|x l IH]; simpl.
  - apply frames_ret.
  - apply frames_bind; auto.
Qed.

Create HintDb frames.

#[local] Hint Resolve frames_ret frames_raise frames_deref frames_store
  frames_bind frames_try_except frames_for_each : frames.
#[local] Hint Extern 1 (frames (emit _)) =>
  apply frames_emit; reflexivity : frames.
#[local] Hint Extern 2 (frames (match _ with _ => _ end)) =>
  frames_case : frames.

Lemma frames_append_message h m : frames (append_message h m).
Proof. unfold append_message. auto with frames. Qed.

Lemma frames_set_messages h ms : frames (set_messages h ms).
Proof. unfold set_messages. auto with frames. Qed.

#[local] Hint Resolve frames_append_message frames_set_messages : frames.

Lemma frames_setup_message h m : frames (setup_message h m).
Proof.
  unfold setup_message, append_system_message, append_ai_message,
    append_user_message.
  auto 8 with frames.
Qed.

#[local] Hint Resolve frames_setup_message : frames.

Lemma frames_setup_messages self ms : frames (_setup_messages self ms).
Proof. unfold _setup_messages. auto 8 with frames. Qed.

Lemma frames_chatter_set_api_key E h key usr :
  frames (chatter_set_api_key E h key usr).
Proof.
  unfold chatter_set_api_key.
  apply frames_bind; [auto with frames|]. intros c.
  apply frames_bind; [auto with frames|]. intros ? w.
  destruct (set_api_key (lib E) c key usr (openai_api_key w)) as [[hc k']|e].
  - destruct w as [d n hp k0 tr]. simpl.
    do 2 eexists. exists []. split; [|reflexivity].
    unfold_world. now rewrite app_nil_r.
  - apply frame_step_refl.
Qed.

Lemma frames_chatter_query E h text : frames (chatter_query E h text).
Proof.
  unfold chatter_query.
  apply frames_bind; [auto with frames|]. intros c.
  apply frames_bind; [auto with frames|]. intros ?.
  destruct (query (lib E) c text) as [[[msg usage] hist]|e];
    auto with frames.
Qed.

#[local] Hint Resolve frames_setup_messages frames_chatter_set_api_key
  frames_chatter_query : frames.

Lemma frames_SessionData_chat_query E self h msgs api_key rc useRAG :
  frames (SessionData_chat_query E self h msgs api_key rc useRAG).
Proof.
  unfold SessionData_chat_query, subscript_ragConfig, set_rag_agent,
    rag_agent_connect, logger_error.
  destruct (get_azure_embedding_deployment E) as [[az dep] ep].
  apply frames_bind; [auto with frames|]. intros ?.
  apply frames_bind; [auto 8 with frames|]. intros ?.
  apply frames_bind.
  { destruct useRAG; [|auto with frames].
    apply frames_bind; [auto with frames|]. intros ?.
    destruct (connect_raises (lib E) _); auto with frames. }
  intros ?.
  apply frames_bind; [auto with frames|]. intros ?.
  apply frames_try_except.
  - apply frames_bind; [auto with frames|]. intros [msg usage].
    auto with frames.
  - intros e. auto with frames.
Qed.

Lemma frames_SessionData_chat E self msgs authKey rc useRAG :
  frames (SessionData_chat E self msgs authKey rc useRAG).
Proof.
  unfold SessionData_chat.
  pose proof frames_SessionData_chat_query as Hq.
  destruct (chatter self) as [h|]; [|auto with frames].
  destruct msgs as [|m msgs]; [auto with frames|].
  apply frames_bind; [auto with frames|]. intros c.
  destruct (negb (is_azure_kind (kind c))); [|apply Hq].
  intros w. cbv beta.
  destruct (negb (truthy (openai_api_key w)) || negb (has_chat c)).
  - destruct (negb (truthy authKey)); [apply frame_step_refl|].
    apply frames_bind; auto with frames.
  - apply Hq.
Qed.

(** * Lock levels *)

Lemma lockfree_levels evs : forall d,
  lockfree evs = true ->
  lock_run d evs = d /\ Forall (fun l => l = d) (query_levels d evs).
Proof.
  induction evs as [|ev evs IH]; intros d H; simpl.
  - split; auto.
  - simpl in H. apply andb_true_iff in H as [Hev H].
    destruct (IH d H) as [Hl Hq].
    destruct ev; try discriminate; split; auto.
Qed.

(** Every way out of [get_conversation] leaves the lock where it was and
    issues no query. *)
Lemma get_conversation_quiet E sid w :
  exists evs,
    trace (snd (get_conversation E sid w)) = trace w ++ evs
    /\ quiet evs
    /\ rlock (snd (get_conversation E sid w)) = rlock w.
Proof.
  destruct (fst (get_conversation E sid w)) as [r|e] eqn:Hf.
  - destruct (get_conversation_returns E sid w r Hf)
      as [[_ ->]|(_ & _ & args & hc & key & evs & _ & _ & -> & Hq)].
    + exists [Acquire; Release].
      split; [reflexivity|]. split; [solve_quiet|reflexivity].
    + exists evs. split; [reflexivity|]. split; [exact Hq|reflexivity].
  - destruct (get_conversation_raises E sid w e Hf)
      as (_ & _ & hp & key & evs & -> & Hq & _).
    exists evs. split; [reflexivity|]. split; [exact Hq|reflexivity].
Qed.

Lemma chat_run_aux E sid msgs authKey rc useRAG w r w' :
  chat E sid msgs authKey rc useRAG w = (r, w') ->
  exists evs,
    trace w' = trace w ++ Acquire :: evs ++ [Release]
    /\ lock_run (S (rlock w)) evs = S (rlock w)
    /\ Forall (fun l => l = S (rlock w)) (query_levels (S (rlock w)) evs)
    /\ rlock w' = rlock w.
Proof.
  unfold chat.
  unfold bind at 1. unfold rlock_acquire at 1. cbv beta iota.
  set (w1 := record Acquire (with_rlock (S (rlock w)) w)).
  assert (Hr1 : rlock w1 = S (rlock w)) by reflexivity.
  assert (Ht1 : trace w1 = trace w ++ [Acquire]) by reflexivity.
  clearbody w1.
  unfold try_finally, try_except. unfold bind at 1.
  destruct (get_conversation_quiet E sid w1) as (e1 & Ht2 & Hq1 & Hr2).
  destruct (Hq1 (S (rlock w))) as [Hq1q Hq1l].
  destruct (get_conversation E sid w1) as [[conv|e] w2]; simpl in Ht2, Hr2.
  - unfold bind at 1. unfold logger_info, emit at 1. cbv beta iota.
    set (w3 := record (InfoGetConversation sid) w2).
    assert (Hr3 : rlock w3 = rlock w2) by reflexivity.
    assert (Ht3 : trace w3 = trace w2 ++ [InfoGetConversation sid])
      by reflexivity.
    clearbody w3.
    pose proof (frames_SessionData_chat E conv msgs authKey rc useRAG w3)
      as (hp & key & e2 & Hw4 & Hl).
    destruct (lockfree_levels e2 (S (rlock w)) Hl) as [Hl2 Hq2].
    destruct (SessionData_chat E conv msgs authKey rc useRAG w3)
      as [[r0|e] w4]; simpl in Hw4; subst w4.
    + unfold rlock_release. simpl. rewrite Hr3, Hr2, Hr1. simpl.
      intros [= <- <-]. simpl.
      exists (e1 ++ InfoGetConversation sid :: e2).
      rewrite Ht3, Ht2, Ht1, <- ?app_assoc. simpl.
      rewrite <- ?app_assoc. split; [reflexivity|].
      rewrite lock_run_app, query_levels_app, Hq1q, Hq1l. simpl. auto.
    + unfold logger_error, emit, raise, bind, rlock_release. simpl.
      rewrite Hr3, Hr2, Hr1. simpl.
      intros [= <- <-]. simpl.
      exists (e1 ++ InfoGetConversation sid :: e2 ++ [LogError e]).
      rewrite Ht3, Ht2, Ht1, <- ?app_assoc. simpl.
      rewrite <- ?app_assoc. split; [reflexivity|].
      rewrite lock_run_app, query_levels_app, Hq1q, Hq1l. simpl.
      rewrite lock_run_app, query_levels_app, Hl2. simpl.
      rewrite app_nil_r. auto.
  - unfold logger_error, emit, raise, bind, rlock_release. simpl.
    rewrite Hr2, Hr1. simpl.
    intros [= <- <-]. simpl.
    exists (e1 ++ [LogError e]).
    rewrite Ht2, Ht1, <- ?app_assoc. simpl. split; [reflexivity|].
    rewrite lock_run_app, query_levels_app, Hq1q, Hq1l. simpl. auto.
Qed.

(** * The recycling tick *)

Lemma int_lt_float_iff a x : int_lt_float a x = true <-> (inject_Z a < x)%Q.
Proof.
  unfold int_lt_float. rewrite negb_true_iff. split.
  - intros H. apply Qnot_le_lt. intros Hle.
    apply Qle_bool_iff in Hle. congruence.
  - intros H. destruct (Qle_bool x (inject_Z a)) eqn:Hb; auto.
    apply Qle_bool_iff in Hb. apply Qlt_not_le in H. contradiction.
Qed.

Lemma emitting_nil w : emitting [] w = w.
Proof. destruct w; unfold emitting; simpl. now rewrite app_nil_r. Qed.

Lemma unlogged_app e1 e2 : unlogged e1 -> unlogged e2 -> unlogged (e1 ++ e2).
Proof.
  intros H1 H2 e Hin. apply in_app_or in Hin as [H|H]; [eapply H1|eapply H2];
    eauto.
Qed.

Lemma recycle_scan_run E now k acc w r :
  PyDict.get k (conversationsDict w) = Some r ->
  recycle_scan E now k acc w
  = (Return (acc ++ if int_lt_float (refreshedAt r + maxAge r) now
                    then [sessionId r] else []),
     emitting [Acquire; Release;
               InfoRecycleSession k (refreshedAt r) (maxAge r)] w).
Proof.
  intros Hget. unfold recycle_scan. unfold bind at 1.
  rewrite (get_conversation_present E k w r Hget).
  unfold_py. simpl.
  destruct (int_lt_float _ now); simpl; unfold_world;
    rewrite <- ?app_assoc, ?app_nil_r; reflexivity.
Qed.

Lemma scan_run E now l : forall acc w,
  (forall k, In k l -> exists r, PyDict.get k (conversationsDict w) = Some r) ->
  exists evs,
    quiet evs
    /\ unlogged evs
    /\ for_fold l acc (recycle_scan E now) w
       = (Return (acc ++ to_remove now (conversationsDict w) l),
          emitting evs w).
Proof.
  induction l as [|k l IH]; intros acc w Hin; simpl.
  - exists []. split; [apply quiet_nil|]. split; [intros e []|].
    unfold ret. now rewrite app_nil_r, emitting_nil.
  - destruct (Hin k (or_introl eq_refl)) as [r Hget].
    unfold bind. rewrite (recycle_scan_run E now k acc w r Hget), Hget.
    set (w1 := emitting _ w).
    destruct (IH (acc ++ if int_lt_float (refreshedAt r + maxAge r) now
                         then [sessionId r] else []) w1)
      as (evs & Hq & Hu & ->).
    { intros k' Hk'. apply Hin. now right. }
    exists ([Acquire; Release;
             InfoRecycleSession k (refreshedAt r) (maxAge r)] ++ evs).
    split; [|split].
    + apply quiet_app; auto. solve_quiet.
    + apply unlogged_app; auto. intros e [H|[H|[H|[]]]]; discriminate.
    + subst w1. rewrite emitting_emitting. simpl.
      now rewrite <- app_assoc.
Qed.

Lemma for_each_remove_run l : forall w,
  exists evs,
    quiet evs
    /\ unlogged evs
    /\ for_each l remove_conversation w
       = (Return tt,
          emitting evs
            (with_dict
               (fold_left (fun d s => PyDict.del s d) l (conversationsDict w))
               w)).
Proof.
  induction l as [|k l IH]; intros w; simpl.
  - exists []. split; [apply quiet_nil|]. split; [intros e []|].
    unfold ret. destruct w; unfold_world. now rewrite app_nil_r.
  - unfold bind. rewrite remove_conversation_run.
    destruct (IH (emitting [Acquire; Release]
                    (with_dict (PyDict.del k (conversationsDict w)) w)))
      as (evs & Hq & Hu & ->).
    exists ([Acquire; Release] ++ evs). split; [|split].
    + apply quiet_app; auto. solve_quiet.
    + apply unlogged_app; auto. intros e [H|[H|[]]]; discriminate.
    + destruct w; unfold_world. now rewrite <- app_assoc.
Qed.

Lemma recycle_conversations_run E w :
  let d := conversationsDict w in
  exists evs,
    quiet evs
    /\ recycle_conversations E w
       = (Return tt,
          emitting (InfoRecycle :: evs)
            (with_dict
               (fold_left (fun d' s => PyDict.del s d')
                  (to_remove (now E) d (PyDict.keys d)) d) w))
    /\ unlogged evs.
Proof.
  intros d. unfold recycle_conversations.
  unfold logger_info, emit, rlock_acquire, get_dict.
  unfold bind at 1. unfold bind at 1. cbv beta iota.
  unfold try_finally, try_except. unfold bind at 1. unfold bind at 1.
  set (w1 := record Acquire (with_rlock _ (record InfoRecycle w))).
  assert (Hd1 : conversationsDict w1 = d) by reflexivity.
  rewrite Hd1.
  destruct (scan_run E (now E) (PyDict.keys d) [] w1)
    as (e1 & Hq1 & Hu1 & ->).
  { intros k Hk. rewrite Hd1. now apply in_keys_get. }
  rewrite Hd1. simpl.
  destruct (for_each_remove_run (to_remove (now E) d (PyDict.keys d))
              (emitting e1 w1)) as (e2 & Hq2 & Hu2 & ->).
  exists (Acquire :: (e1 ++ e2) ++ [Release]).
  split; [|split].
  - apply quiet_locked, quiet_app; auto.
  - unfold_py. subst w1 d. destruct w; unfold_world.
    now rewrite <- !app_assoc.
  - intros e [H|H]; [discriminate|].
    apply in_app_or in H as [H|[H|[]]]; [|discriminate].
    apply in_app_or in H as [H|H]; [eapply Hu1|eapply Hu2]; eauto.
Qed.

(** * How each call changes the registry *)

Lemma initialize_conversation_dict E sid cfg w :
  conversationsDict (snd (initialize_conversation E sid cfg w))
  = match fst (initialize_conversation E sid cfg w) with
    | Return _ =>
        PyDict.set sid (SessionData_init E sid cfg (Some (length (heap w))))
          (conversationsDict w)
    | Raise _ => conversationsDict w
    end.
Proof.
  destruct (fst (initialize_conversation E sid cfg w)) as [[]|e] eqn:Hf.
  - destruct (initialize_conversation_returns E sid cfg w Hf)
      as (args & hc & key & evs & _ & _ & -> & _). reflexivity.
  - destruct (initialize_conversation_raises E sid cfg w e Hf)
      as (hp & key & evs & -> & _). reflexivity.
Qed.

Lemma get_conversation_dict E sid w :
  conversationsDict (snd (get_conversation E sid w)) = conversationsDict w
  \/ (PyDict.get sid (conversationsDict w) = None
      /\ conversationsDict (snd (get_conversation E sid w))
         = PyDict.set sid
             (SessionData_init E sid defaultModelConfig
                (Some (length (heap w))))
             (conversationsDict w)).
Proof.
  destruct (fst (get_conversation E sid w)) as [r|e] eqn:Hf.
  - destruct (get_conversation_returns E sid w r Hf)
      as [[_ ->]|(Hn & -> & args & hc & key & evs & _ & _ & -> & _)].
    + now left.
    + right. split; auto.
  - destruct (get_conversation_raises E sid w e Hf)
      as (_ & _ & hp & key & evs & -> & _). now left.
Qed.

Lemma try_finally_release_dict {A} (c : M A) w :
  conversationsDict (snd (try_finally c rlock_release w))
  = conversationsDict (snd (c w)).
Proof.
  unfold try_finally, rlock_release.
  destruct (c w) as [r w1]. simpl. now destruct (rlock w1).
Qed.

Lemma chat_dict_eq E sid msgs authKey rc useRAG w :
  conversationsDict (snd (chat E sid msgs authKey rc useRAG w))
  = conversationsDict
      (snd (get_conversation E sid
              (record Acquire (with_rlock (S (rlock w)) w)))).
Proof.
  unfold chat. unfold bind at 1. unfold rlock_acquire at 1. cbv beta iota.
  set (w1 := record Acquire (with_rlock (S (rlock w)) w)).
  rewrite try_finally_release_dict.
  unfold try_except. unfold bind at 1.
  destruct (get_conversation E sid w1) as [[conv|e] w2]; [|reflexivity].
  unfold bind at 1. unfold logger_info, emit at 1. cbv beta iota.
  pose proof (frames_SessionData_chat E conv msgs authKey rc useRAG
                (record (InfoGetConversation sid) w2))
    as (hp & key & evs & Hw & _).
  destruct (SessionData_chat E conv msgs authKey rc useRAG _)
    as [[r|e] w3]; simpl in Hw; subst w3; reflexivity.
Qed.

Lemma chat_dict E sid msgs authKey rc useRAG w :
  conversationsDict (snd (chat E sid msgs authKey rc useRAG w))
  = conversationsDict w
  \/ (PyDict.get sid (conversationsDict w) = None
      /\ conversationsDict (snd (chat E sid msgs authKey rc useRAG w))
         = PyDict.set sid
             (SessionData_init E sid defaultModelConfig
                (Some (length (heap w))))
             (conversationsDict w)).
Proof.
  rewrite chat_dict_eq.
  exact (get_conversation_dict E sid
           (record Acquire (with_rlock (S (rlock w)) w))).
Qed.

Lemma recycle_conversations_dict E w k r :
  PyDict.get k (conversationsDict (snd (recycle_conversations E w))) = Some r ->
  PyDict.get k (conversationsDict w) = Some r.
Proof.
  destruct (recycle_conversations_run E w) as (evs & _ & -> & _). simpl.
  rewrite get_fold_del. destruct (existsb _ _); auto; discriminate.
Qed.

(** A record found after a call was there before it, or the call has just
    constructed it. *)
Lemma run_call_lookup E c w k r' :
  PyDict.get k (conversationsDict (run_call E c w)) = Some r' ->
  PyDict.get k (conversationsDict w) = Some r'
  \/ (creates k c = true
      /\ (keeps_records c = true -> PyDict.get k (conversationsDict w) = None)
      /\ exists cfg h, r' = SessionData_init E k cfg h).
Proof.
  assert (Hset : forall sid cfg h,
    PyDict.get k (PyDict.set sid (SessionData_init E sid cfg h)
                    (conversationsDict w)) = Some r' ->
    PyDict.get k (conversationsDict w) = Some r'
    \/ (String.eqb sid k = true
        /\ exists cfg h, r' = SessionData_init E k cfg h)).
  { intros sid cfg h. destruct (String.eqb_spec sid k) as [->|Hne].
    - rewrite get_set_eq. intros [= <-]. right. eauto.
    - rewrite get_set_ne; auto. }
  destruct c as [sid cfg|sid|sid|sid|sid msgs authKey rc useRAG|];
    unfold run_call, creates, keeps_records.
  - rewrite initialize_conversation_dict.
    destruct (fst (initialize_conversation E sid cfg w)); auto.
    intros H. destruct (Hset _ _ _ H) as [?|[? ?]]; auto.
    right. repeat split; auto. discriminate.
  - rewrite has_conversation_run. auto.
  - destruct (get_conversation_dict E sid w) as [->|[Hn ->]]; auto.
    intros H. destruct (Hset _ _ _ H) as [?|[Heq ?]]; auto.
    right. repeat split; auto. apply String.eqb_eq in Heq. now subst.
  - rewrite remove_conversation_run. simpl.
    destruct (String.eqb_spec sid k) as [->|Hne].
    + now rewrite get_del_eq.
    + rewrite get_del_ne; auto.
  - destruct (chat_dict E sid msgs authKey rc useRAG w) as [->|[Hn ->]]; auto.
    intros H. destruct (Hset _ _ _ H) as [?|[Heq ?]]; auto.
    right. repeat split; auto. apply String.eqb_eq in Heq. now subst.
  - intros H. left. eapply recycle_conversations_dict, H.
Qed.

Lemma SessionData_init_ok E k cfg h :
  record_ok (SessionData_init E k cfg h)
  /\ sessionId (SessionData_init E k cfg h) = k.
Proof. repeat split. Qed.

(** Every record of a registry built by calls keeps the timestamps of its
    construction and sits under its own identifier. *)
Lemma run_calls_records cs : forall w,
  (forall k r, PyDict.get k (conversationsDict w) = Some r ->
               record_ok r /\ sessionId r = k) ->
  forall k r, PyDict.get k (conversationsDict (run_calls cs w)) = Some r ->
              record_ok r /\ sessionId r = k.
Proof.
  induction cs as [|[E c] cs IH]; intros w Hw; simpl; auto.
  apply IH. intros k r H.
  destruct (run_call_lookup E c w k r H) as [?|(_ & _ & cfg & h & ->)]; auto.
  apply SessionData_init_ok.
Qed.

Lemma run_calls_absent cs sid : forall w,
  (forall Ec, In Ec cs -> creates sid (snd Ec) = false) ->
  PyDict.get sid (conversationsDict w) = None ->
  PyDict.get sid (conversationsDict (run_calls cs w)) = None.
Proof.
  induction cs as [|[E c] cs IH]; intros w Hcs Hw; simpl; auto.
  apply IH.
  - intros Ec HIn. apply Hcs. now right.
  - destruct (PyDict.get sid (conversationsDict (run_call E c w)))
      as [r|] eqn:H; auto.
    destruct (run_call_lookup E c w sid r H) as [?|(Hc & _)]; [congruence|].
    pose proof (Hcs (E, c) (or_introl eq_refl)) as Hn. simpl in Hn.
    congruence.
Qed.

Lemma selected_args_kind E cfg args :
  selected_args E cfg = Return args ->
  kind_of args
  = if environ_is E (OPENAI_API_TYPE E) "azure" then AzureGptConversation
    else match PyDict.get "model" cfg with
         | Some model =>
             if pyval_is_str model "mistral-wasm"
             then WasmConversation else GptConversation
         | None => GptConversation
         end.
Proof.
  unfold selected_args.
  repeat destruct_match; try discriminate; intros [= <-]; reflexivity.
Qed.

(** When the setup of the engine succeeds, spelt out for each branch. *)
Lemma engine_setup_plain E cfg api_key model :
  environ_is E (OPENAI_API_TYPE E) "azure" = false ->
  PyDict.get "model" cfg = Some model ->
  construct_raises (lib E)
    (if pyval_is_str model "mistral-wasm"
     then WasmArgs "mistral-wasm"
     else GptArgs "gpt-3.5-turbo" (get_rag_agent_prompts E)) = None ->
  engine_setup E cfg api_key
  = Return (if pyval_is_str model "mistral-wasm"
            then WasmArgs "mistral-wasm"
            else GptArgs "gpt-3.5-turbo" (get_rag_agent_prompts E),
            false, api_key).
Proof.
  intros Hz Hm Hc. unfold engine_setup, selected_args. rewrite Hz, Hm.
  destruct (pyval_is_str model "mistral-wasm"); now rewrite Hc.
Qed.

Lemma engine_setup_azure E cfg api_key d m v u :
  environ_is E (OPENAI_API_TYPE E) "azure" = true ->
  PyDict.get (OPENAI_DEPLOYMENT_NAME E) (environ E) = Some d ->
  PyDict.get (OPENAI_MODEL E) (environ E) = Some m ->
  PyDict.get (OPENAI_API_VERSION E) (environ E) = Some v ->
  PyDict.get (AZURE_OPENAI_ENDPOINT E) (environ E) = Some u ->
  construct_raises (lib E) (AzureArgs d m (get_rag_agent_prompts E) v u)
  = None ->
  engine_setup E cfg api_key
  = match PyDict.get (OPENAI_API_KEY E) (environ E) with
    | None => Raise (KeyError (OPENAI_API_KEY E))
    | Some key =>
        match set_api_key (lib E)
                (mkConversation
                   (AzureArgs d m (get_rag_agent_prompts E) v u)
                   false [] None)
                (Some key) None api_key with
        | Raise e => Raise e
        | Return (hc, k') =>
            Return (AzureArgs d m (get_rag_agent_prompts E) v u, hc, k')
        end
    end.
Proof.
  intros Hz Hd Hm Hv Hu Hc. unfold engine_setup, selected_args.
  now rewrite Hz, Hd, Hm, Hv, Hu, Hc.
Qed.

(** * The properties of the specification *)




(** C6, as the code has it.  [initialize_conversation] returns exactly when
    the engine can be set up for the supplied configuration.  The registry
    then holds under the identifier a record with the supplied
    configuration and both timestamps at the clock reading of the call; its
    conversation sits at a handle that was not in use before the call, was
    constructed with the arguments the environment and the configuration
    select (Azure by the environment, else WASM or GPT by the model name),
    and has an empty history; the objects of the old heap and the records
    under the other identifiers are as they were.  Whether a record was
    stored under the identifier before plays no part.  When the setup is
    stopped by an error, the call raises that error and the registry is as
    it was; outside Azure a configuration without a model is such a case.
    The setup succeeds: outside Azure, when the configuration names a model
    and the constructor of the selected class returns; under Azure, when
    the four variables of the deployment are set, the constructor returns,
    the API key variable is set and [set_api_key] returns. *)
Theorem initialize_overwrites E sid cfg w :
  let w' := snd (initialize_conversation E sid cfg w) in
  let h := length (heap w) in
  (forall args hc key,
     engine_setup E cfg (openai_api_key w) = Return (args, hc, key) ->
     fst (initialize_conversation E sid cfg w) = Return tt
     /\ PyDict.get sid (conversationsDict w')
        = Some (mkSessionData cfg (Some h) sid
                  (int_of_float (now E)) (int_of_float (now E)) MAX_AGE)
     /\ nth_error (heap w) h = None
     /\ nth_error (heap w') h = Some (mkConversation args hc [] None)
     /\ selected_args E cfg = Return args
     /\ kind_of args
        = (if environ_is E (OPENAI_API_TYPE E) "azure"
           then AzureGptConversation
           else match PyDict.get "model" cfg with
                | Some model =>
                    if pyval_is_str model "mistral-wasm"
                    then WasmConversation else GptConversation
                | None => GptConversation
                end)
     /\ (forall h', h' < h -> nth_error (heap w') h' = nth_error (heap w) h')
     /\ (forall k, k <> sid ->
           PyDict.get k (conversationsDict w')
           = PyDict.get k (conversationsDict w)))
  /\ (forall e,
        engine_setup E cfg (openai_api_key w) = Raise e ->
        fst (initialize_conversation E sid cfg w) = Raise e
        /\ conversationsDict w' = conversationsDict w)
  /\ (environ_is E (OPENAI_API_TYPE E) "azure" = false ->
      PyDict.get "model" cfg = None ->
      engine_setup E cfg (openai_api_key w) = Raise (KeyError "model"))
  /\ (forall model,
        environ_is E (OPENAI_API_TYPE E) "azure" = false ->
        PyDict.get "model" cfg = Some model ->
        construct_raises (lib E)
          (if pyval_is_str model "mistral-wasm"
           then WasmArgs "mistral-wasm"
           else GptArgs "gpt-3.5-turbo" (get_rag_agent_prompts E)) = None ->
        engine_setup E cfg (openai_api_key w)
        = Return (if pyval_is_str model "mistral-wasm"
                  then WasmArgs "mistral-wasm"
                  else GptArgs "gpt-3.5-turbo" (get_rag_agent_prompts E),
                  false, openai_api_key w))
  /\ (forall d m v u key hc k',
        environ_is E (OPENAI_API_TYPE E) "azure" = true ->
        PyDict.get (OPENAI_DEPLOYMENT_NAME E) (environ E) = Some d ->
        PyDict.get (OPENAI_MODEL E) (environ E) = Some m ->
        PyDict.get (OPENAI_API_VERSION E) (environ E) = Some v ->
        PyDict.get (AZURE_OPENAI_ENDPOINT E) (environ E) = Some u ->
        construct_raises (lib E)
          (AzureArgs d m (get_rag_agent_prompts E) v u) = None ->
        PyDict.get (OPENAI_API_KEY E) (environ E) = Some key ->
        set_api_key (lib E)
          (mkConversation (AzureArgs d m (get_rag_agent_prompts E) v u)
             false [] None)
          (Some key) None (openai_api_key w) = Return (hc, k') ->
        engine_setup E cfg (openai_api_key w)
        = Return (AzureArgs d m (get_rag_agent_prompts E) v u, hc, k')).
Proof.
  intros w' h. subst w' h.
  pose proof (initialize_conversation_setup E sid cfg w) as Hi.
  split; [|split; [|split; [|split]]].
  - intros args hc key Hs. rewrite Hs in Hi.
    destruct Hi as (evs & -> & _). simpl.
    assert (Ha : selected_args E cfg = Return args).
    { unfold engine_setup in Hs.
      destruct (selected_args E cfg) as [a|]; [|discriminate].
      destruct (construct_raises (lib E) a); [discriminate|].
      destruct (environ_is E (OPENAI_API_TYPE E) "azure").
      - destruct (PyDict.get (OPENAI_API_KEY E) (environ E));
          [|discriminate].
        destruct (set_api_key _ _ _ _ _) as [[? ?]|]; [|discriminate].
        now injection Hs as -> _ _.
      - now injection Hs as -> _ _. }
    split; [reflexivity|].
    split; [apply get_set_eq|].
    split; [apply nth_error_None; lia|].
    split; [apply nth_error_snoc|].
    split; [exact Ha|].
    split; [apply (selected_args_kind E cfg args Ha)|]. split.
    + intros h' Hlt. now apply nth_error_app1.
    + intros k Hk. now apply get_set_ne.
  - intros e Hs. rewrite Hs in Hi. split; [exact Hi|].
    destruct (initialize_conversation_raises E sid cfg w e Hi)
      as (hp & key & evs & -> & _). reflexivity.
  - intros Hz Hm. unfold engine_setup, selected_args. now rewrite Hz, Hm.
  - intros model. apply engine_setup_plain.
  - intros d m v u key hc k' Hz Hd Hm Hv Hu Hc Hk Hs.
    rewrite (engine_setup_azure E cfg (openai_api_key w) d m v u
               Hz Hd Hm Hv Hu Hc).
    now rewrite Hk, Hs.
Qed.

Lemma initialize_overwrites_witness :
  PyDict.get "abc" (conversationsDict w_abc)
  = Some (mkSessionData defaultModelConfig (Some 0) "abc"
            1700000000000 1700000000000 MAX_AGE)
  /\ (PyDict.get "abc"
        (conversationsDict
           (snd (initialize_conversation env_late "abc" wasmModelConfig
                   w_abc)))
      = Some (mkSessionData wasmModelConfig (Some 1) "abc"
                1700259200000 1700259200000 MAX_AGE)
      /\ nth_error
           (heap (snd (initialize_conversation env_late "abc"
                         wasmModelConfig w_abc))) 1
         = Some (mkConversation (WasmArgs "mistral-wasm") false [] None))
  /\ (fst (initialize_conversation env_azure "abc" wasmModelConfig w_abc)
      = Return tt
      /\ nth_error
           (heap (snd (initialize_conversation env_azure "abc"
                         wasmModelConfig w_abc))) 1
         = Some (mkConversation
                   (AzureArgs "chat" "gpt-4" [] "2024-02-01"
                      "https://example.openai.azure.com")
                   true [] None)).
Proof.
  split; [reflexivity|]. split.
  - destruct (initialize_overwrites env_late "abc" wasmModelConfig w_abc)
      as (H & _).
    destruct (H (WasmArgs "mistral-wasm") false None eq_refl)
      as (_ & H1 & _ & H3 & _).
    split; [exact H1|exact H3].
  - destruct (initialize_overwrites env_azure "abc" wasmModelConfig w_abc)
      as (H & _).
    destruct (H (AzureArgs "chat" "gpt-4" [] "2024-02-01"
                   "https://example.openai.azure.com")
                true (Some "azure-key") eq_refl)
      as (H0 & _ & _ & H3 & _).
    split; [exact H0|exact H3].
Defined.

(** C6 as the specification words it fails: outside Azure, initializing the stored
    session [abc] with a configuration that names no model constructs
    nothing; the call raises, and the record stored three days earlier is
    still there with its old timestamps. *)
Lemma initialize_without_model_keeps_old_record :
  PyDict.get "abc" (conversationsDict w_abc)
  = Some (mkSessionData defaultModelConfig (Some 0) "abc"
            1700000000000 1700000000000 MAX_AGE)
  /\ fst (initialize_conversation env_late "abc" [("temperature", PInt 1)]
            w_abc)
     = Raise (KeyError "model")
  /\ PyDict.get "abc"
       (conversationsDict
          (snd (initialize_conversation env_late "abc"
                  [("temperature", PInt 1)] w_abc)))
     = Some (mkSessionData defaultModelConfig (Some 0) "abc"
               1700000000000 1700000000000 MAX_AGE)
  /\ heap (snd (initialize_conversation env_late "abc"
                  [("temperature", PInt 1)] w_abc))
     = heap w_abc.
Proof. repeat split. Qed.

(** C8.  If the constructor of the selected conversation class raises, the
    call raises the same error; and whenever the call raises, the registry
    is the one it found, the error is in the log and the lock is back at the
    level the call found it at. *)
Theorem initialize_failure_inserts_nothing E sid cfg w :
  (forall args e,
     selected_args E cfg = Return args ->
     construct_raises (lib E) args = Some e ->
     fst (initialize_conversation E sid cfg w) = Raise e)
  /\ (forall e,
        fst (initialize_conversation E sid cfg w) = Raise e ->
        let w' := snd (initialize_conversation E sid cfg w) in
        conversationsDict w' = conversationsDict w
        /\ (forall k, PyDict.get k (conversationsDict w')
                      = PyDict.get k (conversationsDict w))
        /\ rlock w' = rlock w
        /\ exists evs, trace w' = trace w ++ evs /\ In (LogError e) evs).
Proof.
  split.
  - intros args e. apply initialize_conversation_ctor_fails.
  - intros e Hf w'. subst w'.
    destruct (initialize_conversation_raises E sid cfg w e Hf)
      as (hp & key & evs & -> & _ & Hin). simpl.
    repeat split; auto. now exists evs.
Qed.

Lemma initialize_failure_inserts_nothing_witness :
  fst (initialize_conversation env_down "abc" defaultModelConfig w_abc)
  = Raise (LibraryError "unsupported model")
  /\ conversationsDict
       (snd (initialize_conversation env_down "abc" defaultModelConfig w_abc))
     = conversationsDict w_abc.
Proof.
  destruct (initialize_failure_inserts_nothing env_down "abc"
              defaultModelConfig w_abc) as [H1 H2].
  split.
  - apply (H1 (GptArgs "gpt-3.5-turbo" [])); reflexivity.
  - apply (H2 (LibraryError "unsupported model")). reflexivity.
Defined.

(** C7.  A call of [has_conversation], [get_conversation], [chat] or
    [recycle_conversations] leaves every record it finds, and that is still
    stored afterwards, equal to what it was, field by field: the timestamps,
    the identifier, the configuration and the maximal age.
    [SessionData.chat] itself leaves the whole registry as it is.  And in a
    registry built from the empty one by any history of calls, every record
    has [refreshedAt = createdAt] and [maxAge = MAX_AGE] and sits under its
    own identifier. *)
Theorem timestamps_never_change :
  (forall E c w k r r',
     keeps_records c = true ->
     PyDict.get k (conversationsDict w) = Some r ->
     PyDict.get k (conversationsDict (run_call E c w)) = Some r' ->
     r' = r)
  /\ (forall E self msgs authKey rc useRAG w,
        conversationsDict (snd (SessionData_chat E self msgs authKey rc useRAG w))
        = conversationsDict w)
  /\ (forall cs k r,
        PyDict.get k (conversationsDict (run_calls cs initial_world)) = Some r ->
        refreshedAt r = createdAt r /\ maxAge r = MAX_AGE /\ sessionId r = k).
Proof.
  split; [|split].
  - intros E c w k r r' Hk Hr Hr'.
    destruct (run_call_lookup E c w k r' Hr') as [H|(_ & Hn & _)].
    + congruence.
    + rewrite (Hn Hk) in Hr. discriminate.
  - intros E self msgs authKey rc useRAG w.
    destruct (frames_SessionData_chat E self msgs authKey rc useRAG w)
      as (hp & key & evs & -> & _). reflexivity.
  - intros cs k r H.
    destruct (run_calls_records cs initial_world) with (k := k) (r := r)
      as [[H1 H2] H3]; auto.
    intros k' r' Hget. discriminate.
Qed.

Lemma timestamps_never_change_witness :
  PyDict.get "abc"
    (conversationsDict
       (run_call env_late (CallChat "abc" talk (Some "sk") (Some rc0) false)
          w_abc))
  = Some (mkSessionData defaultModelConfig (Some 0) "abc"
            1700000000000 1700000000000 MAX_AGE)
  /\ refreshedAt (mkSessionData defaultModelConfig (Some 0) "abc"
                    1700000000000 1700000000000 MAX_AGE)
     = 1700000000000%Z.
Proof.
  destruct timestamps_never_change as (H1 & _ & H3).
  assert (Hafter :
    exists r',
      PyDict.get "abc"
        (conversationsDict
           (run_call env_late
              (CallChat "abc" talk (Some "sk") (Some rc0) false) w_abc))
      = Some r') by (eexists; reflexivity).
  destruct Hafter as [r' Hr'].
  rewrite Hr'.
  rewrite (H1 env_late (CallChat "abc" talk (Some "sk") (Some rc0) false)
             w_abc "abc"
             (mkSessionData defaultModelConfig (Some 0) "abc"
                1700000000000 1700000000000 MAX_AGE) r'
             eq_refl eq_refl Hr').
  split; [reflexivity|].
  apply (H3 [(env0, CallInitialize "abc" defaultModelConfig)] "abc").
  reflexivity.
Defined.

(** C10.  [has_conversation] reports membership in the registry: it answers
    [False] in the initial world and after any history of calls none of
    which constructs a record for the identifier, [True] right after an
    [initialize_conversation] or a [get_conversation] that returned, and
    [False] right after [remove_conversation].  [remove_conversation]
    always returns; on an absent identifier, and so when it is called a
    second time, it changes nothing but the record of its two lock
    events. *)
Theorem store_membership :
  (forall sid w,
     fst (has_conversation sid w)
     = Return (PyDict.mem sid (conversationsDict w)))
  /\ (forall cs sid,
        (forall Ec, In Ec cs -> creates sid (snd Ec) = false) ->
        fst (has_conversation sid (run_calls cs initial_world)) = Return false)
  /\ (forall E sid cfg w,
        fst (initialize_conversation E sid cfg w) = Return tt ->
        fst (has_conversation sid (snd (initialize_conversation E sid cfg w)))
        = Return true)
  /\ (forall E sid w r,
        fst (get_conversation E sid w) = Return r ->
        fst (has_conversation sid (snd (get_conversation E sid w)))
        = Return true)
  /\ (forall sid w,
        fst (remove_conversation sid w) = Return tt
        /\ fst (has_conversation sid (snd (remove_conversation sid w)))
           = Return false)
  /\ (forall sid w,
        PyDict.get sid (conversationsDict w) = None ->
        remove_conversation sid w = (Return tt, emitting [Acquire; Release] w))
  /\ (forall sid w,
        remove_conversation sid (snd (remove_conversation sid w))
        = (Return tt,
           emitting [Acquire; Release] (snd (remove_conversation sid w)))).
Proof.
  assert (Habsent : forall sid w,
    PyDict.get sid (conversationsDict w) = None ->
    remove_conversation sid w = (Return tt, emitting [Acquire; Release] w)).
  { intros sid w Hn. rewrite remove_conversation_run, (del_absent _ _ Hn).
    now destruct w. }
  split; [|split; [|split; [|split; [|split; [|split]]]]].
  - intros sid w. now rewrite has_conversation_run.
  - intros cs sid Hcs. rewrite has_conversation_run. simpl.
    f_equal. apply mem_false_iff, run_calls_absent; auto.
  - intros E sid cfg w Hf. rewrite has_conversation_run. simpl. f_equal.
    apply mem_true_iff. rewrite initialize_conversation_dict, Hf.
    rewrite get_set_eq. eauto.
  - intros E sid w r Hf. rewrite has_conversation_run. simpl. f_equal.
    apply mem_true_iff.
    destruct (get_conversation_returns E sid w r Hf)
      as [[Hs ->]|(_ & _ & args & hc & key & evs & _ & _ & -> & _)]; simpl.
    + eauto.
    + rewrite get_set_eq. eauto.
  - intros sid w. rewrite remove_conversation_run. split; [reflexivity|].
    rewrite has_conversation_run. simpl. f_equal.
    apply mem_false_iff, get_del_eq.
  - exact Habsent.
  - intros sid w. apply Habsent.
    rewrite remove_conversation_run. simpl. apply get_del_eq.
Qed.

Lemma store_membership_witness :
  fst (has_conversation "abc" initial_world) = Return false
  /\ fst (has_conversation "abc" w_abc) = Return true
  /\ fst (has_conversation "abc" (snd (remove_conversation "abc" w_abc)))
     = Return false
  /\ remove_conversation "xyz" w_abc
     = (Return tt, emitting [Acquire; Release] w_abc).
Proof.
  destruct store_membership as (_ & H2 & H3 & _ & H5 & H6 & _).
  split; [|split; [|split]].
  - apply (H2 [] "abc"). intros Ec [].
  - apply (H3 env0 "abc" defaultModelConfig initial_world). reflexivity.
  - apply H5.
  - apply H6. reflexivity.
Defined.

(** C1, as the code has it.  [chat] acquires the lock first and releases it
    last; every query it sends to the engine is sent while the calling
    thread holds the lock, one level above the level the call found it at;
    the lock is back at that level when the call returns or raises. *)
Theorem chat_queries_under_lock E sid msgs authKey rc useRAG w :
  exists evs,
    trace (snd (chat E sid msgs authKey rc useRAG w))
    = trace w ++ Acquire :: evs ++ [Release]
    /\ Forall (fun l => l = S (rlock w))
              (query_levels (rlock w) (Acquire :: evs ++ [Release]))
    /\ lock_run (rlock w) (Acquire :: evs) = S (rlock w)
    /\ rlock (snd (chat E sid msgs authKey rc useRAG w)) = rlock w.
Proof.
  destruct (chat E sid msgs authKey rc useRAG w) as [r w'] eqn:Hc.
  destruct (chat_run_aux E sid msgs authKey rc useRAG w r w' Hc)
    as (evs & Ht & Hl & Hq & Hr).
  exists evs. simpl. split; [exact Ht|]. split; [|split; [exact Hl|exact Hr]].
  rewrite query_levels_app, Hl. simpl. now rewrite app_nil_r.
Qed.

(** C1 as the specification words it fails: in a first chat on session [abc] the one
    query is sent at lock level 1, that is, with the lock held. *)
Lemma chat_holds_lock_during_query :
  fst (chat env0 "abc" hello (Some "sk") (Some rc0) false initial_world)
  = Return (Reply "hi" [("total_tokens", 3%Z)])
  /\ query_levels 0
       (trace (snd (chat env0 "abc" hello (Some "sk") (Some rc0) false
                      initial_world)))
     = [1]
  /\ ~ Forall (fun l => l = 0)
        (query_levels 0
           (trace (snd (chat env0 "abc" hello (Some "sk") (Some rc0) false
                          initial_world)))).
Proof.
  split; [reflexivity|]. split; [reflexivity|].
  intros H. inversion H. discriminate.
Qed.

Lemma key_missing_true c w :
  key_missing c w = true ->
  negb (is_azure_kind (kind c)) = true
  /\ negb (truthy (openai_api_key w)) || negb (has_chat c) = true.
Proof. unfold key_missing. apply andb_true_iff. Qed.

Lemma SessionData_chat_gate E self h c msgs authKey rc useRAG w :
  chatter self = Some h ->
  nth_error (heap w) h = Some c ->
  key_missing c w = true ->
  truthy authKey = false ->
  msgs <> [] ->
  SessionData_chat E self msgs authKey rc useRAG w = (Return PyFalse, w).
Proof.
  intros Hs Hh Hk Ha Hm. destruct (key_missing_true c w Hk) as [Hz Hn].
  unfold SessionData_chat. rewrite Hs.
  destruct msgs as [|m msgs]; [congruence|].
  unfold bind, deref. rewrite Hh, Hz, Hn, Ha. reflexivity.
Qed.

(** C3.  For a session whose engine is not the Azure one, with no
    [openai.api_key] set or no [chat] attribute on the engine, a call
    without an [authKey] sends nothing to the engine and returns no reply:
    the world is exactly as before, and the value returned is [False] for
    every non-empty list of messages ([None] for the empty list, which is
    turned back before the key is looked at).  [chat] on the stored session
    hands that value on and adds its lock and log events only. *)
Theorem chat_without_key_returns_False E self h c msgs authKey rc useRAG w :
  chatter self = Some h ->
  nth_error (heap w) h = Some c ->
  key_missing c w = true ->
  truthy authKey = false ->
  let answer := match msgs with [] => PyNone | _ :: _ => PyFalse end in
  (msgs <> [] -> answer = PyFalse)
  /\ SessionData_chat E self msgs authKey rc useRAG w = (Return answer, w)
  /\ (forall sid,
        PyDict.get sid (conversationsDict w) = Some self ->
        chat E sid msgs authKey rc useRAG w
        = (Return answer,
           emitting [Acquire; Acquire; Release; InfoGetConversation sid;
                     Release] w)).
Proof.
  intros Hs Hh Hk Ha answer.
  assert (Hrun :
    SessionData_chat E self msgs authKey rc useRAG w = (Return answer, w)).
  { subst answer. destruct msgs as [|m msgs].
    - unfold SessionData_chat. now rewrite Hs.
    - apply (SessionData_chat_gate E self h c); auto. discriminate. }
  split; [|split].
  - subst answer. destruct msgs; [congruence|reflexivity].
  - exact Hrun.
  - intros sid Hget. unfold chat.
    unfold bind at 1. unfold rlock_acquire at 1. cbv beta iota.
    unfold try_finally, try_except. unfold bind at 1.
    rewrite (get_conversation_present E sid _ self) by exact Hget.
    unfold bind at 1. unfold logger_info, emit at 1. cbv beta iota.
    assert (Hrun' :
      SessionData_chat E self msgs authKey rc useRAG
        (record (InfoGetConversation sid)
           (emitting [Acquire; Release]
              (record Acquire (with_rlock (S (rlock w)) w))))
      = (Return answer,
         record (InfoGetConversation sid)
           (emitting [Acquire; Release]
              (record Acquire (with_rlock (S (rlock w)) w))))).
    { subst answer. destruct msgs as [|m msgs].
      - unfold SessionData_chat. now rewrite Hs.
      - apply (SessionData_chat_gate E self h c); auto. discriminate. }
    rewrite Hrun'.
    destruct w; unfold rlock_release; unfold_world.
    now rewrite <- !app_assoc.
Qed.

Lemma chat_without_key_returns_False_witness :
  SessionData_chat env0
    (mkSessionData defaultModelConfig (Some 0) "abc"
       1700000000000 1700000000000 MAX_AGE)
    hello None (Some rc0) false w_abc
  = (Return PyFalse, w_abc)
  /\ chat env0 "abc" hello None (Some rc0) false w_abc
     = (Return PyFalse,
        emitting [Acquire; Acquire; Release; InfoGetConversation "abc";
                  Release] w_abc).
Proof.
  destruct (chat_without_key_returns_False env0
              (mkSessionData defaultModelConfig (Some 0) "abc"
                 1700000000000 1700000000000 MAX_AGE)
              0 (mkConversation (GptArgs "gpt-3.5-turbo" []) false [] None)
              hello None (Some rc0) false w_abc
              eq_refl eq_refl eq_refl eq_refl)
    as (_ & H2 & H3).
  split; [exact H2|]. apply H3. reflexivity.
Defined.

(** In a keyed registry the scan collects the identifiers of the expired
    records. *)
Lemma in_to_remove now d k :
  store_keyed d ->
  In k (to_remove now d (PyDict.keys d))
  <-> exists r, PyDict.get k d = Some r
                /\ int_lt_float (refreshedAt r + maxAge r) now = true.
Proof.
  intros Hkeyed. unfold to_remove. rewrite in_flat_map. split.
  - intros (x & Hx & Hin).
    destruct (PyDict.get x d) as [r|] eqn:Hget; [|contradiction].
    destruct (int_lt_float _ now) eqn:Hlt; [|contradiction].
    destruct Hin as [<-|[]].
    rewrite (Hkeyed x r Hget). eauto.
  - intros (r & Hget & Hlt). exists k. split.
    + eapply get_in_keys, Hget.
    + rewrite Hget, Hlt. left. now apply Hkeyed.
Qed.

Lemma existsb_eqb_In k l : existsb (String.eqb k) l = true <-> In k l.
Proof.
  rewrite existsb_exists. split.
  - intros (x & Hx & Heq). apply String.eqb_eq in Heq. now subst.
  - intros H. exists k. split; auto. apply String.eqb_refl.
Qed.

Lemma recycle_lookup E w k :
  store_keyed (conversationsDict w) ->
  fst (recycle_conversations E w) = Return tt
  /\ PyDict.get k (conversationsDict (snd (recycle_conversations E w)))
     = match PyDict.get k (conversationsDict w) with
       | Some r =>
           if int_lt_float (refreshedAt r + maxAge r) (now E)
           then None else Some r
       | None => None
       end.
Proof.
  intros Hkeyed.
  destruct (recycle_conversations_run E w) as (evs & _ & -> & _).
  simpl. split; [reflexivity|].
  rewrite get_fold_del.
  destruct (existsb _ _) eqn:Hex.
  - apply existsb_eqb_In, in_to_remove in Hex; auto.
    destruct Hex as (r & -> & ->). reflexivity.
  - destruct (PyDict.get k (conversationsDict w)) as [r|] eqn:Hget; auto.
    destruct (int_lt_float _ (now E)) eqn:Hlt; auto.
    assert (Hin : In k (to_remove (now E) (conversationsDict w)
                          (PyDict.keys (conversationsDict w)))).
    { apply in_to_remove; eauto. }
    apply existsb_eqb_In in Hin. congruence.
Qed.

(** C4.  A tick on an empty registry returns and changes nothing but the
    record of its log entry and lock events.  A tick on a registry in which
    every record is stored under its own identifier returns and removes
    exactly the expired records: a
    record with [refreshedAt + maxAge < now] is gone afterwards, any other
    record is still stored and equal to what it was, and no record appears.
    So a record with deadline [T0 + M] is removed by a tick at
    [T0 + M + eps] and kept by a tick at [T0 + M - eps], for every
    [eps > 0]. *)
Theorem recycle_removes_expired :
  (forall E w,
     conversationsDict w = [] ->
     recycle_conversations E w
     = (Return tt, emitting [InfoRecycle; Acquire; Release] w))
  /\ (forall E w,
        store_keyed (conversationsDict w) ->
        let w' := snd (recycle_conversations E w) in
        fst (recycle_conversations E w) = Return tt
        /\ (forall k r,
              PyDict.get k (conversationsDict w) = Some r ->
              (PyDict.get k (conversationsDict w') = None
               <-> expired (now E) r)
              /\ (PyDict.get k (conversationsDict w') = Some r
                  <-> ~ expired (now E) r))
        /\ (forall k,
              PyDict.get k (conversationsDict w) = None ->
              PyDict.get k (conversationsDict w') = None)
        /\ (forall k r eps,
              PyDict.get k (conversationsDict w) = Some r ->
              (0 < eps)%Q ->
              ((now E == inject_Z (refreshedAt r + maxAge r) + eps)%Q ->
               PyDict.get k (conversationsDict w') = None)
              /\ ((now E == inject_Z (refreshedAt r + maxAge r) - eps)%Q ->
                  PyDict.get k (conversationsDict w') = Some r))).
Proof.
  split.
  - intros E w Hempty.
    destruct w as [d n hp key tr]. simpl in Hempty. subst d.
    unfold recycle_conversations. unfold_py. simpl. unfold_world.
    now rewrite <- !app_assoc.
  - intros E w Hkeyed w'. subst w'.
    assert (Hmain : forall k r,
      PyDict.get k (conversationsDict w) = Some r ->
      (PyDict.get k (conversationsDict (snd (recycle_conversations E w)))
       = None <-> expired (now E) r)
      /\ (PyDict.get k (conversationsDict (snd (recycle_conversations E w)))
          = Some r <-> ~ expired (now E) r)).
    { intros k r Hget.
      destruct (recycle_lookup E w k Hkeyed) as [_ ->].
      rewrite Hget. unfold expired.
      destruct (int_lt_float _ (now E)) eqn:Hlt.
      - apply int_lt_float_iff in Hlt. split; split; auto; try discriminate.
        intros H. contradiction.
      - assert (Hn : ~ (inject_Z (refreshedAt r + maxAge r) < now E)%Q).
        { intros H. apply int_lt_float_iff in H. congruence. }
        split; split; auto; try discriminate. intros H. contradiction. }
    split; [apply (recycle_lookup E w "" Hkeyed)|].
    split; [exact Hmain|]. split.
    + intros k Hget.
      destruct (recycle_lookup E w k Hkeyed) as [_ ->].
      now rewrite Hget.
    + intros k r eps Hget Heps. destruct (Hmain k r Hget) as [H1 H2].
      unfold expired in *. split; intros Hnow.
      * apply H1. rewrite Hnow.
        rewrite <- (Qplus_0_r (inject_Z _)) at 1.
        apply Qplus_lt_r. exact Heps.
      * apply H2. rewrite Hnow. apply Qle_not_lt.
        rewrite <- (Qplus_0_r (inject_Z _)) at 2.
        unfold Qminus. apply Qplus_le_r.
        apply Qlt_le_weak.
        rewrite <- (Qplus_lt_r _ _ eps), Qplus_opp_r, Qplus_0_r. exact Heps.
Qed.

Lemma store_keyed_w_abc : store_keyed (conversationsDict w_abc).
Proof.
  intros k r. change (conversationsDict w_abc)
    with [("abc", mkSessionData defaultModelConfig (Some 0) "abc"
                    1700000000000 1700000000000 MAX_AGE)].
  simpl. destruct (String.eqb_spec k "abc") as [->|]; [|discriminate].
  now intros [= <-].
Defined.

Lemma recycle_removes_expired_witness :
  PyDict.get "abc"
    (conversationsDict (snd (recycle_conversations env_late w_abc))) = None
  /\ PyDict.get "abc"
       (conversationsDict (snd (recycle_conversations env_early w_abc)))
     = Some (mkSessionData defaultModelConfig (Some 0) "abc"
               1700000000000 1700000000000 MAX_AGE).
Proof.
  destruct recycle_removes_expired as [_ H].
  split.
  - destruct (H env_late w_abc store_keyed_w_abc)
      as (_ & _ & _ & H4).
    apply (H4 "abc" _ (1 # 2)%Q eq_refl); reflexivity.
  - destruct (H env_early w_abc store_keyed_w_abc)
      as (_ & _ & _ & H4).
    apply (H4 "abc" _ (1 # 2)%Q eq_refl); reflexivity.
Defined.


Lemma chatter_set_api_key_run E h key usr w c hc k' :
  nth_error (heap w) h = Some c ->
  set_api_key (lib E) c key usr (openai_api_key w) = Return (hc, k') ->
  chatter_set_api_key E h key usr w
  = (Return tt,
     with_openai_api_key k'
       (with_heap
          (list_update (heap w) h
             (mkConversation (ctor c) hc (messages c) (rag_agent c)))
          (record (SetApiKey h key) w))).
Proof.
  intros Hh Hs. unfold chatter_set_api_key. unfold_py.
  rewrite Hh. simpl. rewrite Hs. reflexivity.
Qed.

Lemma replay_app l1 l2 : replay (l1 ++ l2) = replay l1 ++ replay l2.
Proof. unfold replay. apply flat_map_app. Qed.

Lemma replay_one_unknown m : known_role (role m) = false -> replay_one m = [].
Proof.
  unfold known_role, replay_one.
  destruct (String.eqb (role m) "system"),
    (String.eqb (role m) "assistant"), (String.eqb (role m) "user");
    simpl; auto; discriminate.
Qed.

(** C9.  For a non-empty list of messages, once the key check lets the call
    through and the retrieval agent is set up, the engine is asked exactly
    once: its history at that moment is the replay of all messages but the
    last (a [SystemMessage], [AIMessage] or [HumanMessage] for each message
    with role system, assistant or user, in order, nothing for any other
    role, on a history emptied first), and the text of the query is the
    content of the last message.  The call returns the engine's reply text
    and usage counters, or raises the engine's error after logging it.  The
    first part is the case of a key already in place, the second the case
    of a key supplied with the call. *)
Theorem chat_replays_history E self h c msgs authKey rc useRAG w :
  chatter self = Some h ->
  nth_error (heap w) h = Some c ->
  msgs <> [] ->
  (useRAG = true ->
   connect_raises (lib E) (embedder E authKey rc useRAG) = None) ->
  let earlier := removelast msgs in
  let final := last msgs (mkMessage "" "") in
  let emb := embedder E authKey rc useRAG in
  let evs := (if useRAG then [Connect h] else [])
             ++ [Query h (content final) (replay earlier)] in
  (key_missing c w = false ->
   SessionData_chat E self msgs authKey (Some rc) useRAG w
   = match query (lib E)
             (mkConversation (ctor c) (has_chat c) (replay earlier) (Some emb))
             (content final) with
     | Return (msg, usage, hist') =>
         (Return (Reply msg usage),
          emitting evs
            (with_heap
               (list_update (heap w) h
                  (mkConversation (ctor c) (has_chat c) hist' (Some emb)))
               w))
     | Raise e =>
         (Raise e,
          emitting (evs ++ [LogError e])
            (with_heap
               (list_update (heap w) h
                  (mkConversation (ctor c) (has_chat c) (replay earlier)
                     (Some emb)))
               w))
     end)
  /\ (forall hc k',
        key_missing c w = true ->
        truthy authKey = true ->
        set_api_key (lib E) c authKey (Some (sessionId self))
          (openai_api_key w) = Return (hc, k') ->
        SessionData_chat E self msgs authKey (Some rc) useRAG w
        = match query (lib E)
                  (mkConversation (ctor c) hc (replay earlier) (Some emb))
                  (content final) with
          | Return (msg, usage, hist') =>
              (Return (Reply msg usage),
               emitting (SetApiKey h authKey :: evs)
                 (with_openai_api_key k'
                    (with_heap
                       (list_update (heap w) h
                          (mkConversation (ctor c) hc hist' (Some emb)))
                       w)))
          | Raise e =>
              (Raise e,
               emitting (SetApiKey h authKey :: evs ++ [LogError e])
                 (with_openai_api_key k'
                    (with_heap
                       (list_update (heap w) h
                          (mkConversation (ctor c) hc (replay earlier)
                             (Some emb)))
                       w)))
          end)
  /\ (forall l1 m l2,
        known_role (role m) = false ->
        replay (l1 ++ m :: l2) = replay (l1 ++ l2)).
Proof.
  intros Hs Hh Hm Hconn earlier final emb evs.
  split; [|split].
  - intros Hk.
    unfold SessionData_chat. rewrite Hs.
    destruct msgs as [|m0 ms]; [congruence|].
    unfold bind, deref. rewrite Hh.
    pose proof (SessionData_chat_query_run E self h (m0 :: ms) authKey rc
                  useRAG w c Hs Hh Hconn) as Hrun.
    unfold key_missing in Hk.
    destruct (negb (is_azure_kind (kind c))); simpl in Hk.
    + rewrite Hk. exact Hrun.
    + exact Hrun.
  - intros hc k' Hk Ha Hset.
    destruct (key_missing_true c w Hk) as [Hz Hn].
    unfold SessionData_chat. rewrite Hs.
    destruct msgs as [|m0 ms]; [congruence|].
    unfold bind at 1. unfold deref at 1. rewrite Hh, Hz, Hn, Ha.
    cbv beta iota. simpl negb. cbv iota.
    unfold bind at 1.
    rewrite (chatter_set_api_key_run E h authKey (Some (sessionId self)) w c
               hc k' Hh Hset).
    set (w1 := with_openai_api_key k' _).
    assert (Hh1 : nth_error (heap w1) h
                  = Some (mkConversation (ctor c) hc (messages c)
                            (rag_agent c))).
    { subst w1. simpl. eapply nth_error_list_update_eq, Hh. }
    rewrite (SessionData_chat_query_run E self h (m0 :: ms) authKey rc
               useRAG w1 _ Hs Hh1 Hconn).
    simpl ctor. simpl has_chat.
    fold earlier. fold final. fold emb.
    destruct (query (lib E) _ (content final)) as [[[msg usage] hist']|e];
      subst w1 evs; destruct w; unfold_world;
      rewrite list_update_twice, <- ?app_assoc; simpl;
      rewrite <- ?app_assoc; reflexivity.
  - intros l1 m l2 Hu.
    rewrite !replay_app. simpl. unfold replay at 2. simpl.
    now rewrite (replay_one_unknown m Hu).
Qed.

Lemma chat_replays_history_witness :
  SessionData_chat env0
    (mkSessionData defaultModelConfig (Some 0) "abc"
       1700000000000 1700000000000 MAX_AGE)
    talk (Some "sk") (Some rc0) false w_abc
  = (Return (Reply "hi" [("total_tokens", 3%Z)]),
     emitting
       [SetApiKey 0 (Some "sk");
        Query 0 "hello" [SystemMessage "be kind"; AIMessage "hi"]]
       (with_openai_api_key (Some "sk")
          (with_heap
             [mkConversation (GptArgs "gpt-3.5-turbo" []) true
                [SystemMessage "be kind"; AIMessage "hi";
                 HumanMessage "hello"; AIMessage "hi"]
                (Some (embedder env0 (Some "sk") rc0 false))]
             w_abc))).
Proof.
  destruct (chat_replays_history env0
              (mkSessionData defaultModelConfig (Some 0) "abc"
                 1700000000000 1700000000000 MAX_AGE)
              0 (mkConversation (GptArgs "gpt-3.5-turbo" []) false [] None)
              talk (Some "sk") rc0 false w_abc eq_refl eq_refl)
    as (_ & H & _).
  - discriminate.
  - discriminate.
  - exact (H true (Some "sk") eq_refl eq_refl eq_refl).
Defined.

(** * Further properties of the code *)

(** * Lock discipline of the calls *)

Lemma initialize_conversation_quiet E sid cfg w :
  exists evs,
    trace (snd (initialize_conversation E sid cfg w)) = trace w ++ evs
    /\ quiet evs
    /\ rlock (snd (initialize_conversation E sid cfg w)) = rlock w.
Proof.
  destruct (fst (initialize_conversation E sid cfg w)) as [[]|e] eqn:Hf.
  - destruct (initialize_conversation_returns E sid cfg w Hf)
      as (args & hc & key & evs & _ & _ & -> & Hq).
    exists evs. split; [reflexivity|]. split; [exact Hq|reflexivity].
  - destruct (initialize_conversation_raises E sid cfg w e Hf)
      as (hp & key & evs & -> & Hq & _).
    exists evs. split; [reflexivity|]. split; [exact Hq|reflexivity].
Qed.

(** X1.  Whatever a call does, and whether it returns or raises, the lock
    is afterwards at the level the call found it at, and the lock events the
    call has added to the trace balance out. *)
Theorem every_call_gives_the_lock_back E c w :
  rlock (run_call E c w) = rlock w
  /\ exists evs,
       trace (run_call E c w) = trace w ++ evs
       /\ lock_run (rlock w) evs = rlock w.
Proof.
  destruct c as [sid cfg|sid|sid|sid|sid msgs authKey rc useRAG|];
    unfold run_call.
  - destruct (initialize_conversation_quiet E sid cfg w)
      as (evs & Ht & Hq & Hr).
    split; [exact Hr|]. exists evs. split; [exact Ht|]. apply Hq.
  - rewrite has_conversation_run. split; [reflexivity|].
    exists [Acquire; Release]. split; reflexivity.
  - destruct (get_conversation_quiet E sid w) as (evs & Ht & Hq & Hr).
    split; [exact Hr|]. exists evs. split; [exact Ht|]. apply Hq.
  - rewrite remove_conversation_run. split; [reflexivity|].
    exists [Acquire; Release]. split; reflexivity.
  - destruct (chat E sid msgs authKey rc useRAG w) as [r w'] eqn:Hc.
    destruct (chat_run_aux E sid msgs authKey rc useRAG w r w' Hc)
      as (evs & Ht & Hl & _ & Hr).
    split; [exact Hr|]. exists (Acquire :: evs ++ [Release]).
    split; [exact Ht|]. simpl. rewrite lock_run_app, Hl. reflexivity.
  - destruct (recycle_conversations_run E w) as (evs & Hq & -> & _).
    split; [reflexivity|]. exists (InfoRecycle :: evs).
    split; [reflexivity|]. simpl. apply Hq.
Qed.

(** * Sessions do not interfere *)

(** X2.  A call that names one session leaves the record stored under any
    other identifier as it is: present and equal, or absent as before. *)
Theorem calls_leave_other_sessions E c w sid k :
  target c = Some sid ->
  k <> sid ->
  PyDict.get k (conversationsDict (run_call E c w))
  = PyDict.get k (conversationsDict w).
Proof.
  intros Ht Hk. assert (Hk' : sid <> k) by congruence.
  destruct c as [s cfg|s|s|s|s msgs authKey rc useRAG|];
    unfold run_call; simpl in Ht; try discriminate;
    injection Ht as ->.
  - rewrite initialize_conversation_dict.
    destruct (fst (initialize_conversation E sid cfg w)); auto.
    now apply get_set_ne.
  - now rewrite has_conversation_run.
  - destruct (get_conversation_dict E sid w) as [->|[_ ->]]; auto.
    now apply get_set_ne.
  - rewrite remove_conversation_run. simpl. now apply get_del_ne.
  - destruct (chat_dict E sid msgs authKey rc useRAG w) as [->|[_ ->]]; auto.
    now apply get_set_ne.
Qed.

Lemma calls_leave_other_sessions_witness :
  PyDict.get "abc"
    (conversationsDict
       (run_call env_late (CallChat "xyz" hello (Some "sk") (Some rc0) false)
          w_abc))
  = PyDict.get "abc" (conversationsDict w_abc).
Proof.
  apply (calls_leave_other_sessions env_late
           (CallChat "xyz" hello (Some "sk") (Some rc0) false) w_abc "xyz").
  - reflexivity.
  - discriminate.
Defined.

(** * The heap *)

Lemma heap_step_refl h w : heap_step h w w.
Proof. split; auto. Qed.

Lemma heap_step_trans h w1 w2 w3 :
  heap_step h w1 w2 -> heap_step h w2 w3 -> heap_step h w1 w3.
Proof.
  intros [L1 N1] [L2 N2]. split; [congruence|].
  intros h' Hh'. now rewrite N2, N1.
Qed.

Lemma touches_ret {A} h (a : A) : touches h (ret a).
Proof. intros w. apply heap_step_refl. Qed.

Lemma touches_raise {A} h e : touches h (@raise A e).
Proof. intros w. apply heap_step_refl. Qed.

Lemma touches_bind {A B} h (c : M A) (k : A -> M B) :
  touches h c -> (forall a, touches h (k a)) -> touches h (bind c k).
Proof.
  intros Hc Hk w. unfold bind. specialize (Hc w).
  destruct (c w) as [[a|e] w1]; simpl in *; auto.
  eapply heap_step_trans; [exact Hc|]. apply Hk.
Qed.

Lemma touches_try_except {A} h (c : M A) (hd : exn -> M A) :
  touches h c -> (forall e, touches h (hd e)) -> touches h (try_except c hd).
Proof.
  intros Hc Hh w. unfold try_except. specialize (Hc w).
  destruct (c w) as [[a|e] w1]; simpl in *; auto.
  eapply heap_step_trans; [exact Hc|]. apply Hh.
Qed.

Lemma touches_emit h ev : touches h (emit ev).
Proof. intros w. split; auto. Qed.

Lemma touches_deref h h0 : touches h (deref h0).
Proof.
  intros w. unfold deref. destruct (nth_error (heap w) h0);
    apply heap_step_refl.
Qed.

Lemma touches_store h c : touches h (store h c).
Proof.
  intros w. unfold store. simpl. split.
  - apply list_update_length.
  - intros h' Hh'. apply nth_error_list_update_ne. congruence.
Qed.

Lemma touches_for_each {A} h (l : list A) (body : A -> M unit) :
  (forall x, touches h (body x)) -> touches h (for_each l body).
Proof.
  intros Hb. induction l as [|x l IH]; simpl.
  - apply touches_ret.
  - apply touches_bind; auto.
Qed.

Create HintDb touches.

#[local] Hint Resolve touches_ret touches_raise touches_deref touches_store
  touches_emit touches_bind touches_try_except touches_for_each : touches.
#[local] Hint Extern 2 (touches _ (match _ with _ => _ end)) =>
  match goal with
  | |- touches _ (match ?x with _ => _ end) => destruct x
  end : touches.

Lemma touches_append_message h m : touches h (append_message h m).
Proof. unfold append_message. auto with touches. Qed.

Lemma touches_set_messages h ms : touches h (set_messages h ms).
Proof. unfold set_messages. auto with touches. Qed.

#[local] Hint Resolve touches_append_message touches_set_messages : touches.

Lemma touches_setup_message h m : touches h (setup_message h m).
Proof.
  unfold setup_message, append_system_message, append_ai_message,
    append_user_message.
  auto 8 with touches.
Qed.

#[local] Hint Resolve touches_setup_message : touches.

Lemma touches_setup_messages self h ms :
  chatter self = Some h -> touches h (_setup_messages self ms).
Proof.
  intros Hs. unfold _setup_messages. rewrite Hs. auto 8 with touches.
Qed.

Lemma touches_chatter_set_api_key E h key usr :
  touches h (chatter_set_api_key E h key usr).
Proof.
  unfold chatter_set_api_key.
  apply touches_bind; [auto with touches|]. intros c.
  apply touches_bind; [apply touches_emit|]. intros ? w.
  destruct (set_api_key (lib E) c key usr (openai_api_key w)) as [[hc k']|e].
  - simpl. split.
    + apply list_update_length.
    + intros h' Hh'. apply nth_error_list_update_ne. congruence.
  - apply heap_step_refl.
Qed.

Lemma touches_chatter_query E h text : touches h (chatter_query E h text).
Proof.
  unfold chatter_query.
  apply touches_bind; [auto with touches|]. intros c.
  apply touches_bind; [auto with touches|]. intros ?.
  destruct (query (lib E) c text) as [[[msg usage] hist]|e];
    auto with touches.
Qed.

#[local] Hint Resolve touches_chatter_set_api_key touches_chatter_query
  : touches.

Lemma touches_SessionData_chat_query E self h msgs api_key rc useRAG :
  chatter self = Some h ->
  touches h (SessionData_chat_query E self h msgs api_key rc useRAG).
Proof.
  intros Hs.
  unfold SessionData_chat_query, subscript_ragConfig, set_rag_agent,
    rag_agent_connect, logger_error.
  destruct (get_azure_embedding_deployment E) as [[az dep] ep].
  apply touches_bind; [auto with touches|]. intros ?.
  apply touches_bind; [auto 8 with touches|]. intros ?.
  apply touches_bind.
  { destruct useRAG; [|auto with touches].
    apply touches_bind; [auto with touches|]. intros ?.
    destruct (connect_raises (lib E) _); auto with touches. }
  intros ?.
  apply touches_bind; [now apply touches_setup_messages|]. intros ?.
  apply touches_try_except.
  - apply touches_bind; [auto with touches|]. intros [msg usage].
    auto with touches.
  - intros e. auto with touches.
Qed.

Lemma touches_SessionData_chat E self h msgs authKey rc useRAG :
  chatter self = Some h ->
  touches h (SessionData_chat E self msgs authKey rc useRAG).
Proof.
  intros Hs. unfold SessionData_chat. rewrite Hs.
  pose proof (fun m a r u =>
                touches_SessionData_chat_query E self h m a r u Hs) as Hq.
  destruct msgs as [|m msgs]; [auto with touches|].
  apply touches_bind; [auto with touches|]. intros c.
  destruct (negb (is_azure_kind (kind c))); [|apply Hq].
  intros w. cbv beta.
  destruct (negb (truthy (openai_api_key w)) || negb (has_chat c)).
  - destruct (negb (truthy authKey)); [apply heap_step_refl|].
    apply touches_bind; auto with touches.
  - apply Hq.
Qed.

(** [chat] on a stored session is [SessionData.chat] on its record, between
    the lock and log events. *)
Lemma chat_present E sid msgs authKey rc useRAG w self :
  PyDict.get sid (conversationsDict w) = Some self ->
  chat E sid msgs authKey rc useRAG w
  = try_finally
      (try_except (SessionData_chat E self msgs authKey rc useRAG)
         (fun e => logger_error e ;; raise e))
      rlock_release
      (emitting [Acquire; Acquire; Release; InfoGetConversation sid]
         (with_rlock (S (rlock w)) w)).
Proof.
  intros Hget. unfold chat.
  unfold bind at 1. unfold rlock_acquire at 1. cbv beta iota.
  unfold try_finally, try_except. unfold bind at 1.
  rewrite (get_conversation_present E sid _ self) by exact Hget.
  unfold bind at 1. unfold logger_info, emit at 1. cbv beta iota.
  replace (record (InfoGetConversation sid)
             (emitting [Acquire; Release]
                (record Acquire (with_rlock (S (rlock w)) w))))
    with (emitting [Acquire; Acquire; Release; InfoGetConversation sid]
            (with_rlock (S (rlock w)) w)).
  - reflexivity.
  - destruct w; unfold_world. now rewrite <- !app_assoc.
Qed.

Lemma try_finally_release_heap {A} (c : M A) w :
  heap (snd (try_finally c rlock_release w)) = heap (snd (c w)).
Proof.
  unfold try_finally, rlock_release.
  destruct (c w) as [r w1]. simpl. now destruct (rlock w1).
Qed.

Lemma try_except_log_heap {A} (c : M A) w :
  heap (snd (try_except c (fun e => logger_error e ;; raise e) w))
  = heap (snd (c w)).
Proof.
  unfold try_except. destruct (c w) as [[a|e] w1]; reflexivity.
Qed.

Lemma initialize_conversation_heap E sid cfg w :
  exists l, heap (snd (initialize_conversation E sid cfg w)) = heap w ++ l.
Proof.
  destruct w as [d n hp key tr].
  unfold initialize_conversation.
  unfold_py. simpl.
  repeat (destruct_match; simpl; unfold_world).
  all: repeat match goal with
       | H : nth_error (_ ++ [_]) (length _) = Some _ |- _ =>
           rewrite nth_error_snoc in H; injection H as <-
       end;
    rewrite ?list_update_snoc.
  all: try (exists []; now rewrite app_nil_r).
  all: eexists; reflexivity.
Qed.

Lemma get_conversation_heap E sid w :
  exists l, heap (snd (get_conversation E sid w)) = heap w ++ l.
Proof.
  destruct (PyDict.get sid (conversationsDict w)) as [r|] eqn:Hget.
  - rewrite (get_conversation_present E sid w r Hget).
    exists []. simpl. now rewrite app_nil_r.
  - rewrite (get_conversation_absent E sid w Hget). cbv zeta.
    destruct (initialize_conversation_heap E sid defaultModelConfig
                (record Acquire (with_rlock (S (rlock w)) w))) as [l Hl].
    destruct (initialize_conversation E sid defaultModelConfig _)
      as [[[]|e] w2]; simpl in Hl.
    + rewrite try_finally_release_heap, try_except_log_heap.
      unfold getitem. exists l.
      destruct (PyDict.get sid (conversationsDict w2)); exact Hl.
    + rewrite try_finally_release_heap. exists l. exact Hl.
Qed.

Lemma initialize_conversation_grows E sid cfg w :
  grows w (snd (initialize_conversation E sid cfg w)).
Proof.
  unfold grows.
  destruct (fst (initialize_conversation E sid cfg w)) as [[]|e] eqn:Hf.
  - destruct (initialize_conversation_returns E sid cfg w Hf)
      as (args & hc & key & evs & _ & _ & -> & _). simpl.
    rewrite length_app. simpl.
    split; [lia|]. exists sid.
    intros k r'. destruct (String.eqb_spec sid k) as [->|Hne].
    + rewrite get_set_eq. intros [= <-]. right. simpl.
      split; [reflexivity|]. split; [reflexivity|lia].
    + rewrite get_set_ne; auto.
  - destruct (initialize_conversation_heap E sid cfg w) as [l Hl].
    split; [rewrite Hl, length_app; lia|]. exists sid.
    rewrite initialize_conversation_dict, Hf. auto.
Qed.

Lemma get_conversation_grows E sid w :
  grows w (snd (get_conversation E sid w)).
Proof.
  unfold grows.
  destruct (fst (get_conversation E sid w)) as [r|e] eqn:Hf.
  - destruct (get_conversation_returns E sid w r Hf)
      as [[_ ->]|(_ & -> & args & hc & key & evs & _ & _ & -> & _)]; simpl.
    + split; [lia|]. exists sid. auto.
    + rewrite length_app. simpl. split; [lia|]. exists sid.
      intros k r'. destruct (String.eqb_spec sid k) as [->|Hne].
      * rewrite get_set_eq. intros [= <-]. right. simpl.
        split; [reflexivity|]. split; [reflexivity|lia].
      * rewrite get_set_ne; auto.
  - destruct (get_conversation_heap E sid w) as [l Hl].
    split; [rewrite Hl, length_app; lia|]. exists sid.
    destruct (get_conversation_raises E sid w e Hf)
      as (_ & _ & hp & key & evs & Hw & _).
    rewrite Hw. simpl. auto.
Qed.

(** What [chat] leaves on the heap is what [SessionData.chat] leaves after
    [get_conversation]. *)
Lemma chat_heap_length E sid msgs authKey rc useRAG w :
  length (heap (snd (chat E sid msgs authKey rc useRAG w)))
  = length (heap (snd (get_conversation E sid
                         (record Acquire (with_rlock (S (rlock w)) w))))).
Proof.
  unfold chat. unfold bind at 1. unfold rlock_acquire at 1. cbv beta iota.
  set (w1 := record Acquire (with_rlock (S (rlock w)) w)).
  rewrite try_finally_release_heap, try_except_log_heap.
  unfold bind at 1.
  destruct (get_conversation E sid w1) as [[conv|e] w2]; [|reflexivity].
  unfold bind at 1. unfold logger_info, emit at 1. cbv beta iota.
  destruct (chatter conv) as [h|] eqn:Hch.
  - pose proof (touches_SessionData_chat E conv h msgs authKey rc useRAG Hch
                  (record (InfoGetConversation sid) w2)) as [Hlen _].
    exact Hlen.
  - unfold SessionData_chat. rewrite Hch. reflexivity.
Qed.

Lemma chat_grows E sid msgs authKey rc useRAG w :
  grows w (snd (chat E sid msgs authKey rc useRAG w)).
Proof.
  pose proof (get_conversation_grows E sid
                (record Acquire (with_rlock (S (rlock w)) w)))
    as [Hl [s Hg]].
  simpl in Hl, Hg.
  split.
  - rewrite chat_heap_length. exact Hl.
  - exists s. intros k r'. rewrite chat_dict_eq, chat_heap_length. apply Hg.
Qed.

Lemma run_call_grows E c w : grows w (run_call E c w).
Proof.
  destruct c as [sid cfg|sid|sid|sid|sid msgs authKey rc useRAG|];
    unfold run_call.
  - apply initialize_conversation_grows.
  - rewrite has_conversation_run. split; [simpl; lia|]. exists sid. auto.
  - apply get_conversation_grows.
  - rewrite remove_conversation_run. simpl. split; [simpl; lia|].
    exists sid. simpl.
    intros k r'. destruct (String.eqb_spec sid k) as [->|Hne].
    + now rewrite get_del_eq.
    + rewrite get_del_ne; auto.
  - apply chat_grows.
  - split.
    + destruct (recycle_conversations_run E w) as (evs & _ & -> & _).
      simpl. lia.
    + exists "". intros k r' H. left. eapply recycle_conversations_dict, H.
Qed.

Lemma grows_keeps_ownership w w' :
  grows w w' ->
  store_live w /\ store_unshared w ->
  store_live w' /\ store_unshared w'.
Proof.
  intros [Hlen [sid Hg]] [Hlive Hun]. split.
  - intros k r Hget. destruct (Hg k r Hget) as [Hold|(_ & Hch & Hlt)].
    + destruct (Hlive k r Hold) as (h & Hh & Hb). exists h. split; auto. lia.
    + eauto.
  - intros k1 k2 r1 r2 h H1 H2 C1 C2.
    destruct (Hg k1 r1 H1) as [O1|(E1 & N1 & _)],
             (Hg k2 r2 H2) as [O2|(E2 & N2 & _)].
    + eapply Hun; eauto.
    + destruct (Hlive k1 r1 O1) as (h1 & Hh1 & Hb1). exfalso.
      assert (h = length (heap w)) by congruence.
      assert (h1 = h) by congruence. lia.
    + destruct (Hlive k2 r2 O2) as (h2 & Hh2 & Hb2). exfalso.
      assert (h = length (heap w)) by congruence.
      assert (h2 = h) by congruence. lia.
    + congruence.
Qed.

Lemma run_calls_ownership cs : forall w,
  store_live w /\ store_unshared w ->
  store_live (run_calls cs w) /\ store_unshared (run_calls cs w).
Proof.
  induction cs as [|[E c] cs IH]; intros w Hw; simpl; auto.
  apply IH. eapply grows_keeps_ownership; [apply run_call_grows|exact Hw].
Qed.

(** X3.  In a registry built from the empty one by any history of calls,
    every stored record has a conversation of its own: its [chatter] is a
    handle of an object on the heap, and no other record has that handle. *)
Theorem every_session_owns_its_conversation cs :
  let w := run_calls cs initial_world in
  (forall k r,
     PyDict.get k (conversationsDict w) = Some r ->
     exists h c, chatter r = Some h /\ nth_error (heap w) h = Some c)
  /\ (forall k1 k2 r1 r2,
        PyDict.get k1 (conversationsDict w) = Some r1 ->
        PyDict.get k2 (conversationsDict w) = Some r2 ->
        k1 <> k2 ->
        chatter r1 <> chatter r2).
Proof.
  intros w.
  destruct (run_calls_ownership cs initial_world) as [Hlive Hun].
  { split.
    - intros k r H. discriminate.
    - intros k1 k2 r1 r2 h H. discriminate. }
  fold w in Hlive, Hun. split.
  - intros k r Hget. destruct (Hlive k r Hget) as (h & Hh & Hb).
    destruct (nth_error (heap w) h) as [c|] eqn:Hn.
    + eauto.
    + apply nth_error_None in Hn. lia.
  - intros k1 k2 r1 r2 H1 H2 Hne Heq.
    destruct (Hlive k1 r1 H1) as (h & Hh & _).
    apply Hne. eapply Hun; eauto. congruence.
Qed.

Lemma every_session_owns_its_conversation_witness :
  chatter (mkSessionData defaultModelConfig (Some 0) "abc"
             1700000000000 1700000000000 MAX_AGE)
  <> chatter (mkSessionData wasmModelConfig (Some 1) "xyz"
                1700259200000 1700259200000 MAX_AGE).
Proof.
  destruct (every_session_owns_its_conversation
              [(env0, CallInitialize "abc" defaultModelConfig);
               (env_late, CallInitialize "xyz" wasmModelConfig)])
    as [_ H].
  apply (H "abc" "xyz"); [reflexivity|reflexivity|discriminate].
Defined.

(** X4.  [chat] on a stored session changes no conversation but that
    session's own: the heap keeps its length, and where no two records have
    the same conversation, the conversation of any other stored session is
    after the call what it was before. *)
Theorem chat_leaves_other_conversations
    E sid msgs authKey rc useRAG w self h :
  PyDict.get sid (conversationsDict w) = Some self ->
  chatter self = Some h ->
  let w' := snd (chat E sid msgs authKey rc useRAG w) in
  length (heap w') = length (heap w)
  /\ (forall h', h' <> h -> nth_error (heap w') h' = nth_error (heap w) h')
  /\ (store_unshared w ->
      forall k r h',
        k <> sid ->
        PyDict.get k (conversationsDict w) = Some r ->
        chatter r = Some h' ->
        nth_error (heap w') h' = nth_error (heap w) h').
Proof.
  intros Hget Hch w'. subst w'.
  rewrite (chat_present E sid msgs authKey rc useRAG w self Hget).
  rewrite try_finally_release_heap, try_except_log_heap.
  pose proof (touches_SessionData_chat E self h msgs authKey rc useRAG Hch
                (emitting [Acquire; Acquire; Release; InfoGetConversation sid]
                   (with_rlock (S (rlock w)) w))) as [Hlen Hother].
  simpl in Hlen, Hother.
  split; [exact Hlen|]. split; [exact Hother|].
  intros Hun k r h' Hk Hr Hh'. apply Hother.
  intros ->. apply Hk. eapply Hun; eauto.
Qed.

Lemma chat_leaves_other_conversations_witness :
  nth_error
    (heap (snd (chat env0 "xyz" talk (Some "sk") (Some rc0) false
                  (snd (initialize_conversation env_late "xyz"
                          wasmModelConfig w_abc)))))
    0
  = Some (mkConversation (GptArgs "gpt-3.5-turbo" []) false [] None).
Proof.
  destruct (chat_leaves_other_conversations env0 "xyz" talk (Some "sk")
              (Some rc0) false
              (snd (initialize_conversation env_late "xyz" wasmModelConfig
                      w_abc))
              (mkSessionData wasmModelConfig (Some 1) "xyz"
                 1700259200000 1700259200000 MAX_AGE)
              1 eq_refl eq_refl) as (_ & H & _).
  rewrite (H 0); [reflexivity|discriminate].
Defined.

(** * [chat] on particular inputs *)

Lemma SessionData_chat_no_messages E self authKey rc useRAG w :
  SessionData_chat E self [] authKey rc useRAG w = (Return PyNone, w).
Proof. unfold SessionData_chat. now destruct (chatter self). Qed.

(** What [chat] on a stored session leaves behind, from what
    [SessionData.chat] does. *)
Lemma chat_present_result E sid msgs authKey rc useRAG w self r w4 :
  PyDict.get sid (conversationsDict w) = Some self ->
  SessionData_chat E self msgs authKey rc useRAG
    (emitting [Acquire; Acquire; Release; InfoGetConversation sid]
       (with_rlock (S (rlock w)) w)) = (r, w4) ->
  chat E sid msgs authKey rc useRAG w
  = (r,
     record Release
       (with_rlock (rlock w)
          match r with
          | Return _ => w4
          | Raise e => record (LogError e) w4
          end)).
Proof.
  intros Hget Hrun.
  rewrite (chat_present E sid msgs authKey rc useRAG w self Hget).
  pose proof (frames_SessionData_chat E self msgs authKey rc useRAG
                (emitting [Acquire; Acquire; Release; InfoGetConversation sid]
                   (with_rlock (S (rlock w)) w)))
    as (hp & key & evs & Hw & _).
  rewrite Hrun in Hw. simpl in Hw.
  unfold try_finally, try_except. rewrite Hrun.
  destruct r as [a|e]; subst w4; reflexivity.
Qed.

Lemma chat_no_messages E sid authKey rc useRAG w :
  chat E sid [] authKey rc useRAG w
  = match get_conversation E sid
            (record Acquire (with_rlock (S (rlock w)) w)) with
    | (Return _, w2) =>
        (Return PyNone,
         record Release
           (with_rlock (rlock w) (record (InfoGetConversation sid) w2)))
    | (Raise e, w2) =>
        (Raise e,
         record Release (with_rlock (rlock w) (record (LogError e) w2)))
    end.
Proof.
  unfold chat.
  unfold bind at 1. unfold rlock_acquire at 1. cbv beta iota.
  set (w1 := record Acquire (with_rlock (S (rlock w)) w)).
  assert (Hr1 : rlock w1 = S (rlock w)) by reflexivity.
  clearbody w1.
  unfold try_finally, try_except. unfold bind at 1.
  destruct (get_conversation_quiet E sid w1) as (e1 & _ & _ & Hr2).
  destruct (get_conversation E sid w1) as [[conv|e] w2]; simpl in Hr2.
  - unfold bind at 1. unfold logger_info, emit at 1. cbv beta iota.
    rewrite SessionData_chat_no_messages.
    unfold rlock_release. simpl. rewrite Hr2, Hr1. reflexivity.
  - unfold logger_error, emit, raise, bind, rlock_release. simpl.
    rewrite Hr2, Hr1. reflexivity.
Qed.

(** X5.  [chat] with an empty list of messages sends nothing to the engine
    and returns [None].  On a stored session it adds its lock and log events
    and changes nothing else.  On an unknown identifier it still constructs
    the session first: when the call returns, the identifier is stored; and
    in either case the events of the call hold no query. *)
Theorem chat_with_no_messages E sid authKey rc useRAG w :
  (forall self,
     PyDict.get sid (conversationsDict w) = Some self ->
     chat E sid [] authKey rc useRAG w
     = (Return PyNone,
        emitting [Acquire; Acquire; Release; InfoGetConversation sid; Release]
          w))
  /\ (forall x,
        fst (chat E sid [] authKey rc useRAG w) = Return x ->
        x = PyNone
        /\ PyDict.mem sid
             (conversationsDict (snd (chat E sid [] authKey rc useRAG w)))
           = true)
  /\ (exists evs,
        trace (snd (chat E sid [] authKey rc useRAG w)) = trace w ++ evs
        /\ query_levels (rlock w) evs = []).
Proof.
  split.
  { intros self Hget.
    rewrite (chat_present_result E sid [] authKey rc useRAG w self
               (Return PyNone) _ Hget
               (SessionData_chat_no_messages E self authKey rc useRAG _)).
    destruct w; unfold_world. now rewrite <- !app_assoc. }
  rewrite chat_no_messages.
  set (w1 := record Acquire (with_rlock (S (rlock w)) w)).
  assert (Ht1 : trace w1 = trace w ++ [Acquire]) by reflexivity.
  clearbody w1.
  destruct (get_conversation_quiet E sid w1) as (e1 & Ht2 & Hq1 & _).
  destruct (Hq1 (S (rlock w))) as [Hq1q Hq1l].
  split.
  - intros x.
    destruct (fst (get_conversation E sid w1)) as [conv0|e0] eqn:Hf.
    + assert (Hstored :
        PyDict.get sid (conversationsDict (snd (get_conversation E sid w1)))
        = Some conv0).
      { destruct (get_conversation_returns E sid w1 conv0 Hf)
          as [[Hs ->]|(_ & _ & args & hc & key & evs & _ & _ & -> & _)];
          simpl; [exact Hs|apply get_set_eq]. }
      destruct (get_conversation E sid w1) as [[conv|e] w2]; simpl in *;
        [|discriminate].
      intros [= <-]. split; [reflexivity|]. apply mem_true_iff. eauto.
    + destruct (get_conversation E sid w1) as [[conv|e] w2]; simpl in *;
        discriminate.
  - destruct (get_conversation E sid w1) as [[conv|e] w2]; simpl in *.
    + exists (Acquire :: e1 ++ [InfoGetConversation sid; Release]).
      rewrite Ht2, Ht1, <- !app_assoc. split; [reflexivity|]. simpl.
      now rewrite query_levels_app, Hq1q.
    + exists (Acquire :: e1 ++ [LogError e; Release]).
      rewrite Ht2, Ht1, <- !app_assoc. split; [reflexivity|]. simpl.
      now rewrite query_levels_app, Hq1q.
Qed.

Lemma chat_with_no_messages_witness :
  fst (chat env0 "xyz" [] None None true w_abc) = Return PyNone
  /\ PyDict.mem "xyz"
       (conversationsDict (snd (chat env0 "xyz" [] None None true w_abc)))
     = true.
Proof.
  destruct (chat_with_no_messages env0 "xyz" None None true w_abc)
    as (_ & H & _).
  destruct (H PyNone eq_refl) as [_ H2].
  split; [reflexivity|exact H2].
Defined.

(** With a key in place the key check is passed over. *)
Lemma SessionData_chat_key_in_place E self h c msgs authKey rc useRAG w :
  chatter self = Some h ->
  nth_error (heap w) h = Some c ->
  msgs <> [] ->
  key_missing c w = false ->
  SessionData_chat E self msgs authKey rc useRAG w
  = SessionData_chat_query E self h msgs authKey rc useRAG w.
Proof.
  intros Hs Hh Hm Hk. unfold SessionData_chat. rewrite Hs.
  destruct msgs as [|m0 ms]; [congruence|].
  unfold bind, deref. rewrite Hh.
  unfold key_missing in Hk.
  destruct (negb (is_azure_kind (kind c))); simpl in Hk; [|reflexivity].
  now rewrite Hk.
Qed.

Lemma SessionData_chat_query_no_ragConfig E self h msgs api_key useRAG w :
  SessionData_chat_query E self h msgs api_key None useRAG w
  = (Raise (TypeError "'NoneType' object is not subscriptable"), w).
Proof.
  unfold SessionData_chat_query.
  now destruct (get_azure_embedding_deployment E) as [[az dep] ep].
Qed.

Lemma SessionData_chat_query_connect_fails
    E self h msgs api_key rc w c e :
  nth_error (heap w) h = Some c ->
  connect_raises (lib E) (embedder E api_key rc true) = Some e ->
  SessionData_chat_query E self h msgs api_key (Some rc) true w
  = (Raise e,
     emitting [Connect h]
       (with_heap
          (list_update (heap w) h
             (mkConversation (ctor c) (has_chat c) (messages c)
                (Some (embedder E api_key rc true))))
          w)).
Proof.
  intros Hh Hc. unfold SessionData_chat_query, embedder in *.
  destruct (get_azure_embedding_deployment E) as [[az dep] ep].
  unfold subscript_ragConfig, set_rag_agent, rag_agent_connect.
  unfold_py. simpl. rewrite Hh. simpl. rewrite Hc. reflexivity.
Qed.

(** X6.  When the engine raises on the query, [chat] raises the same error:
    it is logged twice, by [SessionData.chat] and by [chat], the lock is
    given back, and the session stays stored as it was.  Its conversation
    keeps the replayed history and the new retrieval agent; no reply is
    appended. *)
Theorem chat_reraises_engine_error
    E sid self h c msgs authKey rc useRAG w e :
  PyDict.get sid (conversationsDict w) = Some self ->
  chatter self = Some h ->
  nth_error (heap w) h = Some c ->
  msgs <> [] ->
  key_missing c w = false ->
  (useRAG = true ->
   connect_raises (lib E) (embedder E authKey rc useRAG) = None) ->
  let asked :=
    mkConversation (ctor c) (has_chat c) (replay (removelast msgs))
      (Some (embedder E authKey rc useRAG)) in
  let text := content (last msgs (mkMessage "" "")) in
  query (lib E) asked text = Raise e ->
  chat E sid msgs authKey (Some rc) useRAG w
  = (Raise e,
     emitting
       ([Acquire; Acquire; Release; InfoGetConversation sid]
        ++ (if useRAG then [Connect h] else [])
        ++ [Query h text (replay (removelast msgs));
            LogError e; LogError e; Release])
       (with_heap (list_update (heap w) h asked) w)).
Proof.
  intros Hget Hs Hh Hm Hk Hconn asked text Hq.
  set (w3 := emitting [Acquire; Acquire; Release; InfoGetConversation sid]
               (with_rlock (S (rlock w)) w)).
  assert (Hh3 : nth_error (heap w3) h = Some c) by exact Hh.
  assert (Hk3 : key_missing c w3 = false) by exact Hk.
  pose proof (SessionData_chat_query_run E self h msgs authKey rc useRAG w3 c
                Hs Hh3 Hconn) as Hrun.
  cbv zeta in Hrun. fold asked text in Hrun. rewrite Hq in Hrun.
  rewrite <- (SessionData_chat_key_in_place E self h c msgs authKey (Some rc)
                useRAG w3 Hs Hh3 Hm Hk3) in Hrun.
  rewrite (chat_present_result E sid msgs authKey (Some rc) useRAG w self
             _ _ Hget Hrun).
  f_equal. subst w3. destruct w; unfold_world.
  rewrite <- ?app_assoc. simpl. rewrite <- ?app_assoc. reflexivity.
Qed.

Lemma chat_reraises_engine_error_witness :
  fst (chat env_down "abc" hello None (Some rc0) false w_ready)
  = Raise (LibraryError "no engine").
Proof.
  rewrite (chat_reraises_engine_error env_down "abc"
             (mkSessionData defaultModelConfig (Some 0) "abc"
                1700000000000 1700000000000 MAX_AGE)
             0 (mkConversation (GptArgs "gpt-3.5-turbo" []) true [] None)
             hello None rc0 false w_ready (LibraryError "no engine"));
    try reflexivity; discriminate.
Defined.

(** X7.  With [useRAG] set, when the retrieval agent cannot connect, [chat]
    raises the connection error: the engine is not asked, the error is
    logged once, the lock is given back and the session stays stored.  The
    conversation has the new retrieval agent already, and its history is
    the one it had. *)
Theorem chat_raises_connection_error
    E sid self h c msgs authKey rc w e :
  PyDict.get sid (conversationsDict w) = Some self ->
  chatter self = Some h ->
  nth_error (heap w) h = Some c ->
  msgs <> [] ->
  key_missing c w = false ->
  connect_raises (lib E) (embedder E authKey rc true) = Some e ->
  chat E sid msgs authKey (Some rc) true w
  = (Raise e,
     emitting
       [Acquire; Acquire; Release; InfoGetConversation sid; Connect h;
        LogError e; Release]
       (with_heap
          (list_update (heap w) h
             (mkConversation (ctor c) (has_chat c) (messages c)
                (Some (embedder E authKey rc true))))
          w)).
Proof.
  intros Hget Hs Hh Hm Hk Hc.
  set (w3 := emitting [Acquire; Acquire; Release; InfoGetConversation sid]
               (with_rlock (S (rlock w)) w)).
  assert (Hh3 : nth_error (heap w3) h = Some c) by exact Hh.
  assert (Hk3 : key_missing c w3 = false) by exact Hk.
  pose proof (SessionData_chat_query_connect_fails E self h msgs authKey rc
                w3 c e Hh3 Hc) as Hrun.
  rewrite <- (SessionData_chat_key_in_place E self h c msgs authKey (Some rc)
                true w3 Hs Hh3 Hm Hk3) in Hrun.
  rewrite (chat_present_result E sid msgs authKey (Some rc) true w self
             _ _ Hget Hrun).
  f_equal. subst w3. destruct w; unfold_world.
  rewrite <- ?app_assoc. reflexivity.
Qed.

Lemma chat_raises_connection_error_witness :
  fst (chat env_offline "abc" talk None (Some rc0) true w_ready)
  = Raise (LibraryError "connect failed")
  /\ PyDict.mem "abc"
       (conversationsDict
          (snd (chat env_offline "abc" talk None (Some rc0) true w_ready)))
     = true.
Proof.
  rewrite (chat_raises_connection_error env_offline "abc"
             (mkSessionData defaultModelConfig (Some 0) "abc"
                1700000000000 1700000000000 MAX_AGE)
             0 (mkConversation (GptArgs "gpt-3.5-turbo" []) true [] None)
             talk None rc0 w_ready (LibraryError "connect failed"));
    try reflexivity; try discriminate.
  split; reflexivity.
Defined.

(** X8.  Without a [ragConfig] a chat with messages cannot succeed, whatever
    [useRAG] is: with a key in place [SessionData.chat] raises a
    [TypeError] and leaves the world as it is, and [chat] on the stored
    session raises it after logging it; with a key supplied by the call,
    the key is set first and the [TypeError] comes next.  The engine is not
    asked. *)
Theorem chat_needs_ragConfig E self h c msgs authKey useRAG w :
  chatter self = Some h ->
  nth_error (heap w) h = Some c ->
  msgs <> [] ->
  let err := TypeError "'NoneType' object is not subscriptable" in
  (key_missing c w = false ->
   SessionData_chat E self msgs authKey None useRAG w = (Raise err, w)
   /\ forall sid,
        PyDict.get sid (conversationsDict w) = Some self ->
        chat E sid msgs authKey None useRAG w
        = (Raise err,
           emitting [Acquire; Acquire; Release; InfoGetConversation sid;
                     LogError err; Release] w))
  /\ (forall hc k',
        key_missing c w = true ->
        truthy authKey = true ->
        set_api_key (lib E) c authKey (Some (sessionId self))
          (openai_api_key w) = Return (hc, k') ->
        SessionData_chat E self msgs authKey None useRAG w
        = (Raise err,
           with_openai_api_key k'
             (with_heap
                (list_update (heap w) h
                   (mkConversation (ctor c) hc (messages c) (rag_agent c)))
                (record (SetApiKey h authKey) w)))).
Proof.
  intros Hs Hh Hm err. split.
  - intros Hk.
    assert (Hrun : forall w0,
      nth_error (heap w0) h = Some c -> key_missing c w0 = false ->
      SessionData_chat E self msgs authKey None useRAG w0 = (Raise err, w0)).
    { intros w0 Hh0 Hk0.
      rewrite (SessionData_chat_key_in_place E self h c); auto.
      apply SessionData_chat_query_no_ragConfig. }
    split; [now apply Hrun|].
    intros sid Hget.
    rewrite (chat_present_result E sid msgs authKey None useRAG w self
               (Raise err) _ Hget
               (Hrun (emitting
                        [Acquire; Acquire; Release; InfoGetConversation sid]
                        (with_rlock (S (rlock w)) w)) Hh Hk)).
    f_equal. destruct w; unfold_world. now rewrite <- !app_assoc.
  - intros hc k' Hk Ha Hset.
    destruct (key_missing_true c w Hk) as [Hz Hn].
    unfold SessionData_chat. rewrite Hs.
    destruct msgs as [|m0 ms]; [congruence|].
    unfold bind at 1. unfold deref at 1. rewrite Hh, Hz, Hn, Ha.
    cbv beta iota. simpl negb. cbv iota.
    unfold bind at 1.
    rewrite (chatter_set_api_key_run E h authKey (Some (sessionId self)) w c
               hc k' Hh Hset).
    apply SessionData_chat_query_no_ragConfig.
Qed.

Lemma chat_needs_ragConfig_witness :
  fst (chat env0 "abc" hello (Some "sk") None false w_abc)
  = Raise (TypeError "'NoneType' object is not subscriptable")
  /\ fst (SessionData_chat env0
            (mkSessionData defaultModelConfig (Some 0) "abc"
               1700000000000 1700000000000 MAX_AGE)
            hello (Some "sk") None false w_abc)
     = Raise (TypeError "'NoneType' object is not subscriptable").
Proof.
  split; [reflexivity|].
  destruct (chat_needs_ragConfig env0
              (mkSessionData defaultModelConfig (Some 0) "abc"
                 1700000000000 1700000000000 MAX_AGE)
              0 (mkConversation (GptArgs "gpt-3.5-turbo" []) false [] None)
              hello (Some "sk") false w_abc eq_refl eq_refl)
    as [_ H].
  - discriminate.
  - now rewrite (H true (Some "sk") eq_refl eq_refl eq_refl).
Defined.

(** X9.  What [initialize_conversation] stores is what every later
    [get_conversation] on the identifier hands back, in any environment:
    the record with the supplied configuration and the timestamps of the
    initialization; the lookup constructs nothing and changes nothing but
    the record of its lock events. *)
Theorem get_after_initialize E sid cfg w E' :
  fst (initialize_conversation E sid cfg w) = Return tt ->
  let w' := snd (initialize_conversation E sid cfg w) in
  get_conversation E' sid w'
  = (Return (mkSessionData cfg (Some (length (heap w))) sid
               (int_of_float (now E)) (int_of_float (now E)) MAX_AGE),
     emitting [Acquire; Release] w').
Proof.
  intros Hf w'. apply get_conversation_present. subst w'.
  rewrite initialize_conversation_dict, Hf. apply get_set_eq.
Qed.

Lemma get_after_initialize_witness :
  fst (get_conversation env_late "abc"
         (snd (initialize_conversation env0 "abc" wasmModelConfig w_abc)))
  = Return (mkSessionData wasmModelConfig (Some 1) "abc"
              1700000000000 1700000000000 MAX_AGE).
Proof.
  now rewrite (get_after_initialize env0 "abc" wasmModelConfig w_abc env_late
                 eq_refl).
Defined.

(** * Ticks one after the other *)

Lemma int_lt_float_mono a x y :
  (x <= y)%Q -> int_lt_float a x = true -> int_lt_float a y = true.
Proof.
  intros Hxy Hx. apply int_lt_float_iff. apply int_lt_float_iff in Hx.
  eapply Qlt_le_trans; eauto.
Qed.

Lemma recycle_keeps_keyed E w :
  store_keyed (conversationsDict w) ->
  store_keyed (conversationsDict (snd (recycle_conversations E w))).
Proof.
  intros Hk k r H. apply Hk. eapply recycle_conversations_dict, H.
Qed.

(** X10.  Two ticks, the second no earlier than the first, leave under
    every identifier what the second tick alone leaves.  With the same
    clock reading: a second tick finds nothing left to remove. *)
Theorem later_tick_subsumes_earlier E1 E2 w :
  store_keyed (conversationsDict w) ->
  (now E1 <= now E2)%Q ->
  forall k,
    PyDict.get k
      (conversationsDict
         (snd (recycle_conversations E2
                 (snd (recycle_conversations E1 w)))))
    = PyDict.get k (conversationsDict (snd (recycle_conversations E2 w))).
Proof.
  intros Hkeyed Hle k.
  destruct (recycle_lookup E2 (snd (recycle_conversations E1 w)) k
              (recycle_keeps_keyed E1 w Hkeyed)) as [_ ->].
  destruct (recycle_lookup E1 w k Hkeyed) as [_ ->].
  destruct (recycle_lookup E2 w k Hkeyed) as [_ ->].
  destruct (PyDict.get k (conversationsDict w)) as [r|]; auto.
  destruct (int_lt_float (refreshedAt r + maxAge r) (now E1)) eqn:Hx; auto.
  now rewrite (int_lt_float_mono _ _ _ Hle Hx).
Qed.

Lemma later_tick_subsumes_earlier_witness :
  PyDict.get "abc"
    (conversationsDict
       (snd (recycle_conversations env_late
               (snd (recycle_conversations env_early w_abc)))))
  = None.
Proof.
  rewrite (later_tick_subsumes_earlier env_early env_late w_abc
             store_keyed_w_abc).
  - reflexivity.
  - discriminate.
Defined.

(** * Connection arguments and the endpoints *)

Lemma set_same {V} k (v : V) d :
  PyDict.get k d = Some v -> PyDict.set k v d = d.
Proof.
  induction d as [|[k' v'] d IH]; simpl; [discriminate|].
  destruct (String.eqb_spec k k') as [->|Hne].
  - now intros [= ->].
  - intros H. now rewrite IH.
Qed.

(** Both branches of [process_connection_args] at once. *)
Lemma process_connection_args_known environ rag d :
  known_backend rag = true ->
  process_connection_args environ rag d
  = match host_lower d with
    | Failed e => Failed e
    | Done h =>
        let d1 :=
          if String.eqb h "local"
          then PyDict.set "host"
                 (JStr (environ_or_loopback environ (host_variable rag))) d
          else d in
        let port :=
          match PyDict.get "port" d1 with
          | Some v => v
          | None => JStr (default_port rag)
          end in
        Done (PyDict.set "port" (JStr (format port)) d1)
    end.
Proof.
  unfold known_backend, process_connection_args, host_variable, default_port.
  destruct (String.eqb rag RAG_VECTORSTORE) eqn:Hvs; simpl.
  - reflexivity.
  - intros ->. reflexivity.
Qed.

Lemma process_connection_args_lookup environ rag d :
  known_backend rag = true ->
  (PyDict.get "host" d = None
   \/ exists s, PyDict.get "host" d = Some (JStr s)) ->
  exists d',
    process_connection_args environ rag d = Done d'
    /\ PyDict.get "port" d'
       = Some (JStr match PyDict.get "port" d with
                    | Some v => format v
                    | None => default_port rag
                    end)
    /\ PyDict.get "host" d'
       = match PyDict.get "host" d with
         | Some (JStr s) =>
             if String.eqb (lower s) "local"
             then Some (JStr (environ_or_loopback environ
                                (host_variable rag)))
             else Some (JStr s)
         | other => other
         end
    /\ forall k, k <> "host" -> k <> "port" ->
                 PyDict.get k d' = PyDict.get k d.
Proof.
  intros Hrag Hhost.
  rewrite (process_connection_args_known environ rag d Hrag).
  unfold host_lower.
  assert (Hcase : exists h,
    (match PyDict.get "host" d with
     | None => Done (lower "")
     | Some (JStr s) => Done (lower s)
     | Some v => Failed (Exception ("'" ++ type_name v
                       ++ "' object has no attribute 'lower'"))
     end) = Done h
    /\ (String.eqb h "local" = true ->
        exists s, PyDict.get "host" d = Some (JStr s)
                  /\ String.eqb (lower s) "local" = true)
    /\ (String.eqb h "local" = false ->
        PyDict.get "host" d = None
        \/ exists s, PyDict.get "host" d = Some (JStr s)
                     /\ String.eqb (lower s) "local" = false)).
  { destruct Hhost as [Hn|[s Hs]].
    - rewrite Hn. exists (lower ""). split; [reflexivity|].
      split; [discriminate|auto].
    - rewrite Hs. exists (lower s). split; [reflexivity|]. split; eauto. }
  destruct Hcase as (h & -> & Hyes & Hno). cbv zeta.
  destruct (String.eqb h "local") eqn:Hl.
  - destruct (Hyes eq_refl) as (s & Hs & Hls).
    eexists. split; [reflexivity|].
    rewrite get_set_eq, !get_set_ne, get_set_eq, Hs, Hls by discriminate.
    split; [now destruct (PyDict.get "port" d)|]. split; [reflexivity|].
    intros k Hk1 Hk2. rewrite !get_set_ne; congruence.
  - eexists. split; [reflexivity|].
    rewrite get_set_eq, get_set_ne by discriminate.
    split; [now destruct (PyDict.get "port" d)|]. split.
    + destruct (Hno eq_refl) as [Hn|(s & Hs & Hls)].
      * now rewrite Hn.
      * now rewrite Hs, Hls.
    + intros k Hk1 Hk2. rewrite get_set_ne; congruence.
Qed.

Lemma process_connection_args_vars environ rag c :
  known_backend rag = true ->
  exists d', process_connection_args environ rag (vars c) = Done d'.
Proof.
  intros Hrag.
  destruct (process_connection_args_lookup environ rag (vars c) Hrag)
    as (d' & H & _); [right; now exists (host c)|].
  now exists d'.
Qed.

(** X11.  For the vector store and for the knowledge graph,
    [process_connection_args] fails exactly when a host is given that is not
    a string, and then with an attribute error.  Otherwise the result has a
    port, always a string: the given port in its string form, or the
    default port of the backend; its host is the address from the
    environment (the loopback address when the variable is not set) when
    the given host is "local" in any letter case, and the given host, or
    none, otherwise; every other argument is as given. *)
Theorem process_connection_args_normalizes environ rag d :
  known_backend rag = true ->
  (forall v,
     PyDict.get "host" d = Some v ->
     (forall s, v <> JStr s) ->
     process_connection_args environ rag d
     = Failed (Exception ("'" ++ type_name v
                          ++ "' object has no attribute 'lower'")))
  /\ ((PyDict.get "host" d = None
       \/ exists s, PyDict.get "host" d = Some (JStr s)) ->
      exists d',
        process_connection_args environ rag d = Done d'
        /\ PyDict.get "port" d'
           = Some (JStr match PyDict.get "port" d with
                        | Some v => format v
                        | None => default_port rag
                        end)
        /\ PyDict.get "host" d'
           = match PyDict.get "host" d with
             | Some (JStr s) =>
                 if String.eqb (lower s) "local"
                 then Some (JStr (environ_or_loopback environ
                                    (host_variable rag)))
                 else Some (JStr s)
             | other => other
             end
        /\ forall k, k <> "host" -> k <> "port" ->
                     PyDict.get k d' = PyDict.get k d).
Proof.
  intros Hrag. split.
  - rewrite (process_connection_args_known environ rag d Hrag).
    unfold host_lower.
    intros v Hv Hns. rewrite Hv. destruct v; try reflexivity.
    now elim (Hns s).
  - now apply process_connection_args_lookup.
Qed.

Lemma process_connection_args_normalizes_witness :
  known_backend RAG_KG = true
  /\ exists d',
       process_connection_args [("KGHOST", "10.0.0.7")] RAG_KG
         [("host", JStr "LOCAL"); ("port", JInt 7687); ("user", JNone)]
       = Done d'
       /\ PyDict.get "port" d' = Some (JStr "7687")
       /\ PyDict.get "host" d' = Some (JStr "10.0.0.7")
       /\ PyDict.get "user" d' = Some JNone.
Proof.
  split; [reflexivity|].
  destruct (process_connection_args_normalizes [("KGHOST", "10.0.0.7")] RAG_KG
              [("host", JStr "LOCAL"); ("port", JInt 7687); ("user", JNone)]
              eq_refl) as [_ H].
  destruct H as (d' & H1 & H2 & H3 & H4); [right; now eexists|].
  exists d'. split; [exact H1|]. split; [exact H2|]. split; [exact H3|].
  apply (H4 "user"); discriminate.
Defined.

(** X12.  [process_connection_args] is idempotent: applied to its own
    result it succeeds and changes nothing, for every backend kind. *)
Theorem process_connection_args_idempotent environ rag d d' :
  process_connection_args environ rag d = Done d' ->
  process_connection_args environ rag d' = Done d'.
Proof.
  destruct (known_backend rag) eqn:Hrag.
  - rewrite !(process_connection_args_known environ rag _ Hrag).
    unfold host_lower.
    destruct (PyDict.get "host" d) as [[s| | |]|] eqn:Hh; try discriminate;
      cbv zeta.
    + destruct (String.eqb (lower s) "local") eqn:Hl; intros [= <-].
      * rewrite get_set_ne, get_set_eq by discriminate.
        destruct (String.eqb (lower (environ_or_loopback environ
                                       (host_variable rag))) "local").
        -- rewrite (set_same "host") by
             now rewrite get_set_ne, get_set_eq by discriminate.
           rewrite get_set_eq. simpl format.
           now rewrite (set_same "port") by apply get_set_eq.
        -- rewrite get_set_eq. simpl format.
           now rewrite (set_same "port") by apply get_set_eq.
      * rewrite get_set_ne, Hh, Hl by discriminate.
        rewrite get_set_eq. simpl format.
        now rewrite (set_same "port") by apply get_set_eq.
    + change (String.eqb (lower "") "local") with false. cbv iota.
      intros [= <-].
      rewrite get_set_ne, Hh by discriminate.
      change (String.eqb (lower "") "local") with false. cbv iota.
      rewrite get_set_eq. simpl format.
      now rewrite (set_same "port") by apply get_set_eq.
  - unfold known_backend in Hrag. apply orb_false_iff in Hrag as [H1 H2].
    unfold process_connection_args. rewrite H1, H2. now intros [= <-].
Qed.

Lemma process_connection_args_idempotent_witness :
  process_connection_args [] RAG_VECTORSTORE
    [("host", JStr "local"); ("port", JStr "19530")]
  = Done [("host", JStr "127.0.0.1"); ("port", JStr "19530")]
  /\ process_connection_args [] RAG_VECTORSTORE
       [("host", JStr "127.0.0.1"); ("port", JStr "19530")]
     = Done [("host", JStr "127.0.0.1"); ("port", JStr "19530")].
Proof.
  split; [reflexivity|].
  apply (process_connection_args_idempotent [] RAG_VECTORSTORE
           [("host", JStr "local"); ("port", JStr "19530")]).
  reflexivity.
Defined.

(** ** The endpoints *)

Lemma post_process_run docs :
  if forallb has_id docs
  then exists docs', post_process docs = Done docs'
                     /\ Forall2 id_as_string docs docs'
  else post_process docs = Failed (Exception "'id'").
Proof.
  induction docs as [|doc rest IH]; simpl.
  - exists []. split; [reflexivity|constructor].
  - unfold has_id at 1.
    destruct (PyDict.mem "id" doc) eqn:Hm; simpl.
    + apply mem_true_iff in Hm as [v Hv]. rewrite Hv.
      destruct (forallb has_id rest).
      * destruct IH as (rest' & -> & HF). simpl.
        eexists. split; [reflexivity|]. constructor; [|exact HF].
        exists v. split; [exact Hv|]. split; [apply get_set_eq|].
        intros k Hk. now apply get_set_ne.
      * now rewrite IH.
    + apply mem_false_iff in Hm. now rewrite Hm.
Qed.

Lemma code_of_document_error X e :
  exists c, code_of (document_error X e) = Some c /\ c <> ERROR_OK.
Proof.
  destruct e as [code message text|text]; simpl.
  - destruct (code =? CONNECT_FAILED X)%Z; eexists;
      (split; [reflexivity|discriminate]).
  - eexists. split; [reflexivity|discriminate].
Qed.

(** X13.  Once the caller is authenticated, [getAllDocuments] always
    answers, and with a code.  The store is asked with the processed
    connection arguments.  When it returns documents that all have an id,
    the answer has code [ERROR_OK] and the documents in the same order, each
    with its id turned into a string and its other fields as they were;
    when one of them has no id the answer is the error ['id'] with code
    [ERROR_UNKNOW]; when the store raises, the answer is the error of the
    exception, with a code that is not [ERROR_OK]. *)
Theorem getAllDocuments_answers X environ authorization connectionArgs docIds
    auth :
  get_auth X authorization = Done auth ->
  exists d' response,
    process_connection_args environ RAG_VECTORSTORE (vars connectionArgs)
    = Done d'
    /\ getAllDocuments X environ authorization connectionArgs docIds
       = Done response
    /\ (exists c, code_of response = Some c)
    /\ (forall docs,
          get_all_documents X auth d' docIds = Done docs ->
          if forallb has_id docs
          then exists docs',
                 response = [ ("documents", RDocs docs');
                              ("code", RCode ERROR_OK) ]
                 /\ Forall2 id_as_string docs docs'
          else response = [ ("error", RStr "'id'");
                            ("code", RCode ERROR_UNKNOW) ])
    /\ (forall e,
          get_all_documents X auth d' docIds = Failed e ->
          response = document_error X e
          /\ code_of response <> Some ERROR_OK).
Proof.
  intros Hauth.
  destruct (process_connection_args_vars environ RAG_VECTORSTORE
              connectionArgs eq_refl) as [d' Hd].
  unfold getAllDocuments. rewrite Hauth, Hd. simpl and_then.
  exists d'.
  destruct (get_all_documents X auth d' docIds) as [docs|e] eqn:Hget.
  - simpl and_then. pose proof (post_process_run docs) as Hpp.
    destruct (forallb has_id docs) eqn:Hall.
    + destruct Hpp as (docs' & Hpp & HF). rewrite Hpp.
      eexists. split; [reflexivity|]. split; [reflexivity|].
      split; [now exists ERROR_OK|]. split.
      * intros docs0 [= <-]. rewrite Hall. now exists docs'.
      * discriminate.
    + rewrite Hpp.
      eexists. split; [reflexivity|]. split; [reflexivity|].
      split; [now exists ERROR_UNKNOW|]. split.
      * intros docs0 [= <-]. now rewrite Hall.
      * discriminate.
  - simpl and_then.
    destruct (code_of_document_error X e) as (c & Hc & Hne).
    eexists. split; [reflexivity|]. split; [reflexivity|].
    split; [now exists c|]. split.
    + discriminate.
    + intros e0 [= <-]. split; [reflexivity|]. rewrite Hc. congruence.
Qed.

Lemma getAllDocuments_answers_witness :
  exists d' response,
    process_connection_args [] RAG_VECTORSTORE (vars args_local) = Done d'
    /\ getAllDocuments services0 [] (Some "sk") args_local None
       = Done response
    /\ PyDict.get "host" d' = Some (JStr "127.0.0.1")
    /\ response
       = [ ("documents", RDocs [[("id", JStr "7"); ("name", JStr "a.pdf")]]);
           ("code", RCode ERROR_OK) ].
Proof.
  destruct (getAllDocuments_answers services0 [] (Some "sk") args_local None
              (Some "sk") eq_refl)
    as (d' & response & Hd & Hrun & _).
  exists d', response. split; [exact Hd|]. split; [exact Hrun|].
  injection Hd as <-. injection Hrun as <-. split; reflexivity.
Defined.

(** X14.  Once the caller is authenticated, [removeDocument] always
    answers.  For an empty document id the answer is the error "Failed to
    find document" with no code, whatever the store would do.  For any
    other id the answer has a code, which is [ERROR_OK] exactly when the
    store's [remove_document], called with the processed connection
    arguments, returns; the answer then names the document removed. *)
Theorem removeDocument_answers X environ authorization connectionArgs docId
    docIds auth :
  get_auth X authorization = Done auth ->
  exists d' response,
    process_connection_args environ RAG_VECTORSTORE (vars connectionArgs)
    = Done d'
    /\ removeDocument X environ authorization connectionArgs docId docIds
       = Done response
    /\ (docId = "" ->
        response = [ ("error", RStr "Failed to find document") ]
        /\ code_of response = None)
    /\ (docId <> "" ->
        (exists c, code_of response = Some c)
        /\ (code_of response = Some ERROR_OK
            <-> exists u, remove_document X docId auth d' docIds = Done u)
        /\ (code_of response = Some ERROR_OK ->
            PyDict.get "id" response = Some (RStr docId))).
Proof.
  intros Hauth.
  destruct (process_connection_args_vars environ RAG_VECTORSTORE
              connectionArgs eq_refl) as [d' Hd].
  unfold removeDocument. rewrite Hauth, Hd. simpl and_then.
  exists d'.
  destruct docId as [|a s].
  - eexists. split; [reflexivity|]. split; [reflexivity|].
    split; [now split|]. intros H. now elim H.
  - change (String.length (String a s) =? 0)%nat with false. cbv iota.
    destruct (remove_document X (String a s) auth d' docIds) as [u|e] eqn:Hrm.
    + eexists. split; [reflexivity|]. split; [reflexivity|].
      split; [discriminate|]. intros _.
      split; [now exists ERROR_OK|]. split; [|reflexivity].
      split; [now exists u|reflexivity].
    + destruct (code_of_document_error X e) as (c & Hc & Hne).
      eexists. split; [reflexivity|]. split; [reflexivity|].
      split; [discriminate|]. intros _.
      split; [now exists c|]. rewrite Hc. split.
      * split; [congruence|]. intros [u Hu]. discriminate.
      * congruence.
Qed.

Lemma removeDocument_answers_witness :
  exists d' response,
    process_connection_args [] RAG_VECTORSTORE (vars args_local) = Done d'
    /\ removeDocument services0 [] None args_local "" None = Done response
    /\ response = [ ("error", RStr "Failed to find document") ]
    /\ code_of response = None.
Proof.
  destruct (removeDocument_answers services0 [] None args_local "" None
              None eq_refl)
    as (d' & response & Hd & Hrun & Hempty & _).
  exists d', response. split; [exact Hd|]. split; [exact Hrun|].
  exact (Hempty eq_refl).
Defined.

(** X15.  The two connection status endpoints never raise, whatever
    [get_auth] and the backends do.  [getConnectionStatus] always answers
    with a code, never [ERROR_MILVUS_CONNECT_FAILED]; the code is
    [ERROR_OK] exactly when authentication and the status call return, and
    the answer then says "connected" or "disconnected" after the status.
    When either of them raises, a Milvus error of any code is answered with
    its message and [ERROR_MILVUS_UNKNOWN], any other error with its text
    and [ERROR_UNKNOW].
    [getKGConnectionStatus] always answers with [ERROR_OK] and the status,
    when the status call on the processed arguments returns, or with
    [ERROR_UNKNOW] and the text of the exception. *)
Theorem status_endpoints_always_answer X environ authorization connectionArgs :
  (exists response c,
     getConnectionStatus X environ authorization connectionArgs
     = Done response
     /\ code_of response = Some c
     /\ c <> ERROR_MILVUS_CONNECT_FAILED
     /\ (c = ERROR_OK
         <-> exists auth d' connected,
               get_auth X authorization = Done auth
               /\ process_connection_args environ RAG_VECTORSTORE
                    (vars connectionArgs) = Done d'
               /\ get_vectorstore_connection_status X d' auth
                  = Done connected
               /\ PyDict.get "status" response
                  = Some (RStr (status_text connected)))
     /\ (forall e,
           (get_auth X authorization = Failed e
            \/ exists auth d',
                 get_auth X authorization = Done auth
                 /\ process_connection_args environ RAG_VECTORSTORE
                      (vars connectionArgs) = Done d'
                 /\ get_vectorstore_connection_status X d' auth
                    = Failed e) ->
           response
           = match e with
             | MilvusException _ message _ =>
                 [ ("error", RStr message);
                   ("code", RCode ERROR_MILVUS_UNKNOWN) ]
             | Exception text =>
                 [ ("error", RStr text); ("code", RCode ERROR_UNKNOW) ]
             end))
  /\ (exists d',
        process_connection_args environ RAG_KG (vars connectionArgs)
        = Done d'
        /\ getKGConnectionStatus X environ connectionArgs
           = match get_kg_connection_status X d' with
             | Done connected =>
                 Done [ ("status", RStr (status_text connected));
                        ("code", RCode ERROR_OK) ]
             | Failed e =>
                 Done [ ("error", RStr (str_exc e));
                        ("code", RCode ERROR_UNKNOW) ]
             end).
Proof.
  split.
  - destruct (process_connection_args_vars environ RAG_VECTORSTORE
                connectionArgs eq_refl) as [d' Hd].
    unfold getConnectionStatus. rewrite Hd.
    destruct (get_auth X authorization) as [auth|e] eqn:Hauth; simpl and_then.
    + destruct (get_vectorstore_connection_status X d' auth)
        as [connected|e] eqn:Hst.
      * eexists. exists ERROR_OK. split; [reflexivity|].
        split; [reflexivity|]. split; [discriminate|]. split.
        -- split; [|reflexivity]. intros _.
           exists auth, d', connected. now repeat split.
        -- intros e [He|(auth0 & d0 & [= <-] & [= <-] & He)];
             [discriminate|]. rewrite Hst in He. discriminate.
      * destruct e as [code message text|text];
          eexists; eexists; (split; [reflexivity|]);
          (split; [reflexivity|]); (split; [discriminate|]);
          (split;
           [split; [discriminate|];
            intros (auth0 & d0 & b & [= <-] & [= <-] & Hb & _);
            rewrite Hst in Hb; discriminate|]);
          (intros e [He|(auth0 & d0 & [= <-] & [= <-] & He)];
           [discriminate|]); rewrite Hst in He; injection He as <-;
          reflexivity.
    + destruct e as [code message text|text];
        eexists; eexists; (split; [reflexivity|]);
        (split; [reflexivity|]); (split; [discriminate|]);
        (split;
         [split; [discriminate|];
          intros (auth0 & d0 & b & Ha & _); discriminate|]);
        (intros e [He|(auth0 & d0 & Ha & _)]; [|discriminate]);
        injection He as <-; reflexivity.
  - destruct (process_connection_args_vars environ RAG_KG
                connectionArgs eq_refl) as [d' Hd].
    exists d'. split; [exact Hd|].
    unfold getKGConnectionStatus. rewrite Hd. reflexivity.
Qed.
